(** * Typed environment accessors of package [env] (dennwc/env)

    A shallow embedding of the package: [String], [Bool], [Int], [Float64],
    [Duration] and the replaceable error hook [Log], in both versions of the
    file that the repository holds (src/env.go, whose [Bool] calls
    [strconv.ParseBool], and src/unnamed/part_000, whose [Bool] is a switch
    over six lower-cased tokens).

    The package is a thin layer over the Go standard library.  The library
    functions it calls are modelled first, each in a module named after its
    Go package and following the Go implementation statement by statement:
    [os.Getenv], [strings.ToLower], [fmt.Errorf], [strconv.ParseBool],
    [strconv.Atoi] (with [ParseInt] and [ParseUint] at base 10) and
    [time.ParseDuration].  What is taken as given is collected in the
    record [golib]: the word size, [strconv.ParseFloat], and the Unicode
    table walk that [strings.ToLower] falls back to on a string with a byte
    outside ASCII.  The library is the one of Go 1.21: [Atoi] has its fast
    path and names itself in its errors, [ParseDuration] accumulates in a
    uint64 and quotes the input in its messages. *)

From Stdlib Require Import ZArith Lia Ascii String SpecFloat.
From stdpp Require Import base option list gmap strings.

Local Open Scope Z_scope.

(** ** Go values *)

(** A Go string is a sequence of bytes; [byte c] is the numeric value of one
    of them. *)
Definition byte (c : ascii) : Z := Z.of_N (N_of_ascii c).
Arguments byte : simpl never.

Definition byte_of (z : Z) : ascii := ascii_of_N (Z.to_N (z mod 256)).

(** The double quote character. *)
Definition dquote : ascii := "034"%char.

(** Word size of the platform: Go's [int] is 32 or 64 bits wide. *)
Variant arch : Type := Bits32 | Bits64.

Definition intSize (a : arch) : Z :=
  match a with Bits32 => 32 | Bits64 => 64 end.

Definition minInt (a : arch) : Z := - 2 ^ (intSize a - 1).
Definition maxInt (a : arch) : Z := 2 ^ (intSize a - 1) - 1.

(** Conversions between integer types keep the low bits. *)
Definition to_uint64 (z : Z) : Z := z mod 2 ^ 64.
Definition to_int64 (z : Z) : Z := (z + 2 ^ 63) mod 2 ^ 64 - 2 ^ 63.
Definition to_int (a : arch) (z : Z) : Z :=
  (z + 2 ^ (intSize a - 1)) mod 2 ^ intSize a - 2 ^ (intSize a - 1).

(** [float64] values are IEEE 754 binary64 numbers. *)
Definition float64 : Type := spec_float.

(** The error values the package can hand to the hook: the result of
    [errors.New] or [fmt.Errorf] (a message), and [*strconv.NumError]. *)
Inductive error : Type :=
| errorString (msg : string)
| NumError (Func Num : string) (Err : error).

(** A Go function with results [(T, error)]: the value is returned also
    when the error is not nil. *)
Definition result (T : Type) : Type := (T * option error)%type.

(** What the package is compiled against and this development takes as
    given: the word size, [strconv.ParseFloat] (with its [bitSize]
    argument), and [strings.Map(unicode.ToLower, s)], the rune-by-rune
    lowering through the Unicode tables that [strings.ToLower] uses for a
    string that is not pure ASCII.  Both are functions here, as both
    return for every argument in Go. *)
Record golib : Type := GoLib {
  GOARCH : arch;
  strconv_ParseFloat : string -> Z -> result float64;
  strings_Map_unicode_ToLower : string -> string;
}.

(** ** package strconv *)
Module strconv.

Definition ErrRange : error := errorString "value out of range".
Definition ErrSyntax : error := errorString "invalid syntax".

Definition syntaxError (fn str : string) : error := NumError fn str ErrSyntax.
Definition rangeError (fn str : string) : error := NumError fn str ErrRange.

(** [nerr.Func = fn] on a [*NumError]; other errors are left alone (the
    type assertion fails). *)
Definition set_Func (fn : string) (e : error) : error :=
  match e with
  | NumError _ num err => NumError fn num err
  | _ => e
  end.

Definition set_Num (num : string) (e : error) : error :=
  match e with
  | NumError fn _ err => NumError fn num err
  | _ => e
  end.

Definition Err_of (e : error) : error :=
  match e with
  | NumError _ _ err => err
  | _ => e
  end.

Definition is_ErrRange (e : error) : bool :=
  match Err_of e with
  | errorString m => String.eqb m "value out of range"
  | _ => false
  end.

(** [ParseBool]: a switch over twelve spellings. *)
Definition ParseBool (str : string) : result bool :=
  if existsb (String.eqb str) ["1"; "t"; "T"; "true"; "TRUE"; "True"]%string
  then (true, None)
  else if existsb (String.eqb str) ["0"; "f"; "F"; "false"; "FALSE"; "False"]%string
  then (false, None)
  else (false, Some (syntaxError "ParseBool" str)).

Definition maxUint64 : Z := 2 ^ 64 - 1.

(** [lower(c)]: [c | ('x' - 'X')]. *)
Definition lower (c : Z) : Z := Z.lor c 32.

(** The digit loop of [ParseUint] at base 10 ([base0] is false, so an
    underscore falls to the default case).  [n] is a uint64. *)
Fixpoint ParseUint_loop (s0 : string) (cutoff maxVal : Z) (s : string) (n : Z)
  : result Z :=
  match s with
  | EmptyString => (n, None)
  | String ch s' =>
      let c := byte ch in
      let digit :=
        if (48 <=? c) && (c <=? 57) then Some (c - 48)
        else if (97 <=? lower c) && (lower c <=? 122)
             then Some (lower c - 97 + 10)
             else None in
      match digit with
      | None => (0, Some (syntaxError "ParseUint" s0))
      | Some d =>
          if 10 <=? d then (0, Some (syntaxError "ParseUint" s0))
          else if cutoff <=? n then (maxVal, Some (rangeError "ParseUint" s0))
          else
            let n10 := to_uint64 (n * 10) in
            let n1 := to_uint64 (n10 + d) in
            if (n1 <? n10) || (maxVal <? n1)
            then (maxVal, Some (rangeError "ParseUint" s0))
            else ParseUint_loop s0 cutoff maxVal s' n1
      end
  end.

(** [ParseUint(s, 10, 0)]. *)
Definition ParseUint (a : arch) (s : string) : result Z :=
  if String.eqb s "" then (0, Some (syntaxError "ParseUint" s))
  else
    let cutoff := maxUint64 / 10 + 1 in
    let maxVal := to_uint64 (2 ^ intSize a - 1) in
    ParseUint_loop s cutoff maxVal s 0.

(** The range check that ends [ParseInt]: [un] is the magnitude read by
    [ParseUint], [cutoff] is [1 << (bitSize-1)]. *)
Definition ParseInt_range (a : arch) (s0 : string) (neg : bool) (un : Z)
  : result Z :=
  let cutoff := to_uint64 (2 ^ (intSize a - 1)) in
  if negb neg && (cutoff <=? un)
  then (to_int64 (cutoff - 1), Some (rangeError "ParseInt" s0))
  else if neg && (cutoff <? un)
  then (to_int64 (- to_int64 cutoff), Some (rangeError "ParseInt" s0))
  else
    let n := to_int64 un in
    (if neg then to_int64 (- n) else n, None).

(** [ParseInt(s, 10, 0)].  A range error of [ParseUint] is not returned
    at once: its value [maxVal] goes through the range check. *)
Definition ParseInt (a : arch) (s : string) : result Z :=
  match s with
  | EmptyString => (0, Some (syntaxError "ParseInt" s))
  | String c0 rest =>
      let s0 := s in
      let neg := Ascii.eqb c0 "-" in
      let s := if Ascii.eqb c0 "+" || Ascii.eqb c0 "-" then rest else s in
      match ParseUint a s with
      | (un, Some e) =>
          if negb (is_ErrRange e)
          then (0, Some (set_Num s0 (set_Func "ParseInt" e)))
          else ParseInt_range a s0 neg un
      | (un, None) => ParseInt_range a s0 neg un
      end
  end.

(** The fast path of [Atoi]: every byte must be a decimal digit;
    [ch -= '0'] is byte arithmetic. *)
Fixpoint Atoi_digits (a : arch) (s : string) (n : Z) : option Z :=
  match s with
  | EmptyString => Some n
  | String ch s' =>
      let d := (byte ch - 48) mod 256 in
      if 9 <? d then None
      else Atoi_digits a s' (to_int a (to_int a (n * 10) + d))
  end.

(** [Atoi].  In the fast path [s] is not empty, so [s[0]] is in range; the
    case of the empty string is there for the match only. *)
Definition Atoi (a : arch) (s : string) : result Z :=
  let sLen := Z.of_nat (String.length s) in
  if (0 <? sLen) && (sLen <? (match a with Bits32 => 10 | Bits64 => 19 end))
  then
    let s0 := s in
    match s with
    | EmptyString => (0, Some (syntaxError "Atoi" s0))
    | String c0 rest =>
        let signed := Ascii.eqb c0 "-" || Ascii.eqb c0 "+" in
        let s := if signed then rest else s in
        if signed && (Z.of_nat (String.length s) <? 1)
        then (0, Some (syntaxError "Atoi" s0))
        else
          match Atoi_digits a s 0 with
          | None => (0, Some (syntaxError "Atoi" s0))
          | Some n => (if Ascii.eqb c0 "-" then to_int a (- n) else n, None)
          end
    end
  else
    let '(i64, err) := ParseInt a s in
    (to_int a i64, set_Func "Atoi" <$> err).

End strconv.

(** ** package strings *)
Module strings.

(** The first loop of [ToLower]: is every byte below [utf8.RuneSelf], and
    is one of them an upper-case letter?  The loop stops at the first
    byte outside ASCII. *)
Fixpoint scan (s : string) (hasUpper : bool) : bool * bool :=
  match s with
  | EmptyString => (true, hasUpper)
  | String ch s' =>
      let c := byte ch in
      if 128 <=? c then (false, hasUpper)
      else scan s' (hasUpper || ((65 <=? c) && (c <=? 90)))
  end.

(** The ASCII branch: [c += 'a' - 'A'] on the upper-case letters. *)
Fixpoint lower_ascii (s : string) : string :=
  match s with
  | EmptyString => EmptyString
  | String ch s' =>
      let c := byte ch in
      String (if (65 <=? c) && (c <=? 90) then byte_of (c + 32) else ch)
             (lower_ascii s')
  end.

Definition ToLower (L : golib) (s : string) : string :=
  let '(isASCII, hasUpper) := scan s false in
  if isASCII then
    if negb hasUpper then s else lower_ascii s
  else strings_Map_unicode_ToLower L s.

End strings.

(** ** package fmt *)
Module fmt.

(** [Sprintf(format, arg)] for a format whose only verb is one [%s] and a
    string operand, which is how the package uses it. *)
Fixpoint Sprintf (format : string) (arg : string) : string :=
  match format with
  | EmptyString => EmptyString
  | String c rest =>
      match rest with
      | String v rest' =>
          if Ascii.eqb c "%" && Ascii.eqb v "s" then arg +:+ rest'
          else String c (Sprintf rest arg)
      | EmptyString => String c EmptyString
      end
  end.

Definition Errorf (format : string) (arg : string) : error :=
  errorString (Sprintf format arg).

End fmt.

(** ** package time *)
Module time.

(** [Duration] is an int64 count of nanoseconds. *)
Definition Duration : Type := Z.

Definition Nanosecond : Z := 1.
Definition Microsecond : Z := 1000 * Nanosecond.
Definition Millisecond : Z := 1000 * Microsecond.
Definition Second : Z := 1000 * Millisecond.
Definition Minute : Z := 60 * Second.
Definition Hour : Z := 60 * Minute.

(** The two spellings of the micro sign are U+00B5 and U+03BC in UTF-8. *)
Definition micro_sign_s : string := String "194" (String "181" "s").
Definition greek_mu_s : string := String "206" (String "188" "s").

Definition unitMap (u : string) : option Z :=
  if String.eqb u "ns" then Some Nanosecond
  else if String.eqb u "us" then Some Microsecond
  else if String.eqb u micro_sign_s then Some Microsecond
  else if String.eqb u greek_mu_s then Some Microsecond
  else if String.eqb u "ms" then Some Millisecond
  else if String.eqb u "s" then Some Second
  else if String.eqb u "m" then Some Minute
  else if String.eqb u "h" then Some Hour
  else None.

Definition lowerhex (n : Z) : ascii :=
  match String.get (Z.to_nat n) "0123456789abcdef" with
  | Some c => c
  | None => "0"%char
  end.

(** [quote]: the loop ranges over runes, and writes each byte of a rune
    that is not printable ASCII as a hexadecimal escape; every byte of
    such a rune is itself at or above 0x80 or below 0x20, so the effect
    is the same byte by byte. *)
Fixpoint quote_body (s : string) : string :=
  match s with
  | EmptyString => EmptyString
  | String ch s' =>
      let c := byte ch in
      if (128 <=? c) || (c <? 32)
      then String "\" (String "x" (String (lowerhex (Z.shiftr c 4))
             (String (lowerhex (Z.land c 15)) (quote_body s'))))
      else if Ascii.eqb ch dquote || Ascii.eqb ch "\"
      then String "\" (String ch (quote_body s'))
      else String ch (quote_body s')
  end.

Definition quote (s : string) : string :=
  String dquote (quote_body s +:+ String dquote EmptyString).

Definition is_digit (c : Z) : bool := (48 <=? c) && (c <=? 57).

(** [leadingInt]: the leading [[0-9]*] of [s] as a uint64 and the rest;
    [None] is [errLeadingInt] (overflow). *)
Fixpoint leadingInt (s : string) (x : Z) : option (Z * string) :=
  match s with
  | EmptyString => Some (x, s)
  | String ch s' =>
      let c := byte ch in
      if (c <? 48) || (57 <? c) then Some (x, s)
      else if 2 ^ 63 / 10 <? x then None
      else
        let x' := to_uint64 (to_uint64 (to_uint64 (x * 10) + c) - 48) in
        if 2 ^ 63 <? x' then None else leadingInt s' x'
  end.

Definition f64_of_uint64 (z : Z) : float64 := binary_normalize 53 1024 z 0 false.
Definition f64_mul : float64 -> float64 -> float64 := SFmul 53 1024.
Definition f64_div : float64 -> float64 -> float64 := SFdiv 53 1024.

(** [uint64(x)] for a float64: truncation toward zero.  For a value that
    no uint64 holds the result depends on the machine; [2 ^ 63] is what
    amd64 gives.  [ParseDuration] only converts values below [2 ^ 63]. *)
Definition uint64_of_f64 (x : float64) : Z :=
  match x with
  | S754_zero _ => 0
  | S754_finite false m e =>
      let z := if 0 <=? e then Z.pos m * 2 ^ e else Z.pos m / 2 ^ (- e) in
      if z <? 2 ^ 64 then z else 2 ^ 63
  | _ => 2 ^ 63
  end.

(** [leadingFraction]: the leading [[0-9]*] of [s] as a numerator and a
    power-of-ten scale; digits past the overflow point are dropped. *)
Fixpoint leadingFraction (s : string) (x : Z) (scale : float64)
         (overflow : bool) : Z * float64 * string :=
  match s with
  | EmptyString => (x, scale, s)
  | String ch s' =>
      let c := byte ch in
      if (c <? 48) || (57 <? c) then (x, scale, s)
      else if overflow then leadingFraction s' x scale true
      else if (2 ^ 63 - 1) / 10 <? x then leadingFraction s' x scale true
      else
        let y := to_uint64 (to_uint64 (to_uint64 (x * 10) + c) - 48) in
        if 2 ^ 63 <? y then leadingFraction s' x scale true
        else leadingFraction s' y (f64_mul scale (f64_of_uint64 10)) false
  end.

(** The unit: the bytes up to the next ['.'] or digit. *)
Fixpoint span_unit (s : string) : string * string :=
  match s with
  | EmptyString => (EmptyString, EmptyString)
  | String ch s' =>
      let c := byte ch in
      if (c =? 46) || is_digit c then (EmptyString, s)
      else let '(u, rest) := span_unit s' in (String ch u, rest)
  end.

Definition invalid (orig : string) : error :=
  errorString ("time: invalid duration " +:+ quote orig).

(** One turn of the loop [for s != ""] of [ParseDuration]: one
    magnitude and its unit.  [inl] is an early return with an error,
    [inr] the new [s] and [d].  The loop enters it with [s] not empty. *)
Definition ParseDuration_pair (orig s : string) (d : Z)
  : error + (string * Z) :=
  match s with
  | EmptyString => inl (invalid orig)
  | String ch _ =>
      if negb ((byte ch =? 46) || is_digit (byte ch)) then inl (invalid orig)
      else
        let pl := String.length s in
        match leadingInt s 0 with
        | None => inl (invalid orig)
        | Some (v, s) =>
            let pre := negb (Nat.eqb pl (String.length s)) in
            let '(post, f, scale, s) :=
              match s with
              | String p s1 =>
                  if byte p =? 46 then
                    let pl := String.length s1 in
                    let '(f, scale, s2) :=
                      leadingFraction s1 0 (f64_of_uint64 1) false in
                    (negb (Nat.eqb pl (String.length s2)), f, scale, s2)
                  else (false, 0, f64_of_uint64 1, s)
              | EmptyString => (false, 0, f64_of_uint64 1, s)
              end in
            if negb pre && negb post then inl (invalid orig)
            else
              let '(u, s) := span_unit s in
              if String.eqb u "" then
                inl (errorString ("time: missing unit in duration " +:+ quote orig))
              else
                match unitMap u with
                | None =>
                    inl (errorString ("time: unknown unit " +:+ quote u
                                      +:+ " in duration " +:+ quote orig))
                | Some unit =>
                    if 2 ^ 63 / unit <? v then inl (invalid orig)
                    else
                      let v := to_uint64 (v * unit) in
                      let v' :=
                        if 0 <? f then
                          to_uint64 (v + uint64_of_f64
                            (f64_mul (f64_of_uint64 f)
                               (f64_div (f64_of_uint64 unit) scale)))
                        else v in
                      if (0 <? f) && (2 ^ 63 <? v') then inl (invalid orig)
                      else
                        let d := to_uint64 (d + v') in
                        if 2 ^ 63 <? d then inl (invalid orig)
                        else inr (s, d)
                end
        end
  end.

(** The loop itself.  Each turn shortens [s], so [fuel] above the length
    of [s] is never used up ([None]): lemma [ParseDuration_loop_fuel]. *)
Fixpoint ParseDuration_loop (fuel : nat) (orig s : string) (d : Z)
  : option (error + Z) :=
  match s with
  | EmptyString => Some (inr d)
  | String _ _ =>
      match fuel with
      | O => None
      | S fuel =>
          match ParseDuration_pair orig s d with
          | inl e => Some (inl e)
          | inr (s, d) => ParseDuration_loop fuel orig s d
          end
      end
  end.

Definition ParseDuration (s : string) : result Duration :=
  let orig := s in
  let '(neg, s) :=
    match s with
    | String c rest =>
        if Ascii.eqb c "-" || Ascii.eqb c "+" then (Ascii.eqb c "-", rest)
        else (false, s)
    | EmptyString => (false, s)
    end in
  if String.eqb s "0" then (0, None)
  else if String.eqb s "" then (0, Some (invalid orig))
  else
    match ParseDuration_loop (S (String.length s)) orig s 0 with
    | None => (0, Some (invalid orig))
    | Some (inl e) => (0, Some e)
    | Some (inr d) =>
        if neg then (to_int64 (- to_int64 d), None)
        else if 2 ^ 63 - 1 <? d then (0, Some (invalid orig))
        else (to_int64 d, None)
    end.

End time.

(** ** The process and its effects *)

(** A call either returns or panics (with the panic value). *)
Inductive outcome (A : Type) : Type :=
| Returned (a : A)
| Panicked (v : string).
Arguments Returned {A} a.
Arguments Panicked {A} v.

(** The shape of the error hook, [func(key string, err error)].  A hook acts
    on the world outside the package, of some type [W]: it can change it
    and return, or panic. *)
Definition hook (W : Type) : Type := string -> error -> W -> outcome W.

(** What an accessor can see or touch: the environment variables of the
    process, the function held by the package variable [Log], and the world
    the hook acts on.  [calls] is a ghost history, the arguments of every
    completed call made through [Log], oldest first. *)
Record process (W : Type) : Type := Process {
  environ : gmap string string;
  Log_var : hook W;
  world : W;
  calls : list (string * error);
}.
Arguments Process {W} _ _ _ _.
Arguments environ {W} _.
Arguments Log_var {W} _.
Arguments world {W} _.
Arguments calls {W} _.

(** Code of the package: a function of the process that returns a value and
    the process it leaves, or panics. *)
Definition M (W A : Type) : Type := process W -> outcome (A * process W).

#[global] Instance M_ret (W : Type) : MRet (M W) :=
  fun A a p => Returned (a, p).

#[global] Instance M_bind (W : Type) : MBind (M W) :=
  fun A B f m p =>
    match m p with
    | Returned (a, p') => f a p'
    | Panicked v => Panicked v
    end.

(** ** package os *)
Module os.

(** [Getenv]: the value of the variable named by the key, which is empty
    when the variable is not present.  The empty name names no variable
    ([syscall.Getenv] answers it at once). *)
Definition Getenv {W : Type} (key : string) : M W string :=
  fun p =>
    Returned (if String.eqb key "" then EmptyString
              else default EmptyString (environ p !! key), p).

End os.

(** ** package log *)
Module log.

(** The output of the standard logger, one entry per call of [Printf],
    kept as the format and its two operands. *)
Definition output : Type := list (string * string * error).

Definition Printf (format key : string) (err : error) (out : output)
  : outcome output :=
  Returned (out ++ [(format, key, err)]).

End log.

(** ** package env *)

(** src/unnamed/part_000; src/env.go has the same [Log], [String], [Int],
    [Float64] and [Duration], line for line. *)
Module env.

(** The function [Log] holds when the package is loaded. *)
Definition Log_init : hook log.output :=
  fun key err => log.Printf "error while parsing %s: %v" key err.

Section accessors.
Context (L : golib) {W : Type}.

(** The call [Log(key, err)]: run the function the variable holds. *)
Definition Log (key : string) (err : error) : M W unit :=
  fun p =>
    match Log_var p key err (world p) with
    | Returned w =>
        Returned (tt, Process (environ p) (Log_var p) w
                              (calls p ++ [(key, err)]))
    | Panicked v => Panicked v
    end.

Definition String (key : string) (def : string) : M W string :=
  s ← os.Getenv key;
  if negb (String.eqb s "") then mret s else mret def.

Definition Bool (key : string) (def : bool) : M W bool :=
  s ← (raw ← String key ""; mret (strings.ToLower L raw));
  if existsb (String.eqb s) ["true"; "t"; "1"]%string then mret true
  else if existsb (String.eqb s) ["false"; "f"; "0"]%string then mret false
  else
    (if negb (String.eqb s "")
     then Log key (fmt.Errorf "unknown bool value: '%s'" s)
     else mret tt);;
    mret def.

Definition Int (key : string) (def : Z) : M W Z :=
  s ← String key "";
  if negb (String.eqb s "") then
    match strconv.Atoi (GOARCH L) s with
    | (d, None) => mret d
    | (_, Some err) => Log key err;; mret def
    end
  else mret def.

Definition Float64 (key : string) (def : float64) : M W float64 :=
  s ← String key "";
  if negb (String.eqb s "") then
    match strconv_ParseFloat L s 64 with
    | (d, None) => mret d
    | (_, Some err) => Log key err;; mret def
    end
  else mret def.

Definition Duration (key : string) (def : time.Duration)
  : M W time.Duration :=
  s ← String key "";
  if negb (String.eqb s "") then
    match time.ParseDuration s with
    | (d, None) => mret d
    | (_, Some err) => Log key err;; mret def
    end
  else mret def.

End accessors.

End env.

(** src/env.go: its [Bool], the one function in which the two files differ. *)
Module env_go.

Definition Bool {W : Type} (key : string) (def : bool) : M W bool :=
  s ← env.String key "";
  if negb (String.eqb s "") then
    match strconv.ParseBool s with
    | (d, None) => mret d
    | (_, Some err) => env.Log key err;; mret def
    end
  else mret def.

End env_go.

(** ** Words of the specification *)

(** The raw value of a variable: the string bound to the name, or its
    absence.  No variable has the empty name. *)
Definition raw_value {W : Type} (p : process W) (key : string) : option string :=
  if String.eqb key "" then None else environ p !! key.

(** Absent or empty: the variable is unset, or set to the empty string. *)
Definition absent_or_empty {W : Type} (p : process W) (key : string) : Prop :=
  raw_value p key = None \/ raw_value p key = Some EmptyString.

(** A call that makes no use of the hook and returns [v]: the process is
    left as it was. *)
Definition returns_silently {W A : Type} (m : M W A) (p : process W) (v : A) : Prop :=
  m p = Returned (v, p).

(** A call that invokes the hook exactly once, on [key] and [err], and
    then returns [v]: it behaves as the one call [Log(key, err)] followed
    by [return v], whatever the hook does. *)
Definition reports_once {W A : Type} (m : M W A) (p : process W)
           (key : string) (err : error) (v : A) : Prop :=
  m p = (env.Log key err;; mret v) p.

(** Two bytes that are equal up to the case of an ASCII letter. *)
Definition same_letter (c d : ascii) : bool :=
  Ascii.eqb c d
  || ((65 <=? byte c) && (byte c <=? 90) && (byte d =? byte c + 32))
  || ((97 <=? byte c) && (byte c <=? 122) && (byte d =? byte c - 32)).

(** Case-insensitive comparison of two strings. *)
Fixpoint equal_fold (s t : string) : bool :=
  match s, t with
  | EmptyString, EmptyString => true
  | String c s', String d t' => same_letter c d && equal_fold s' t'
  | _, _ => false
  end.

(** The six recognized tokens and the boolean each stands for. *)
Definition bool_tokens : list (string * bool) :=
  [("true", true); ("t", true); ("1", true);
   ("false", false); ("f", false); ("0", false)]%string.

(** The raw value matches none of the six tokens. *)
Definition matches_no_token (raw : string) : Prop :=
  forall tok b, (tok, b) ∈ bool_tokens -> equal_fold raw tok = false.

(** A base-10 signed integer literal: an optional sign and one or more
    decimal digits; [int_literal s] is the number it denotes. *)
Fixpoint digits_value (s : string) (acc : Z) : option Z :=
  match s with
  | EmptyString => Some acc
  | String ch s' =>
      if (48 <=? byte ch) && (byte ch <=? 57)
      then digits_value s' (acc * 10 + (byte ch - 48))
      else None
  end.

Definition unsigned_literal (s : string) : option Z :=
  match s with
  | EmptyString => None
  | String _ _ => digits_value s 0
  end.

Definition int_literal (s : string) : option Z :=
  match s with
  | EmptyString => None
  | String c rest =>
      if Ascii.eqb c "+" then unsigned_literal rest
      else if Ascii.eqb c "-" then Z.opp <$> unsigned_literal rest
      else unsigned_literal s
  end.


(** The calls [cs] of the hook, in order, and then [return v]. *)
Fixpoint perform {W A : Type} (cs : list (string * error)) (v : A) : M W A :=
  match cs with
  | [] => mret v
  | (key, err) :: cs' => env.Log key err;; perform cs' v
  end.

(** No state carried from call to call: what a call returns and how often
    it invokes the hook is fixed by the raw value of [key] alone.  Any two
    processes that agree on that value get the same result [v] through the
    same calls [cs] of the hook, at most one; and a call that returns
    leaves the environment and the installed hook as they were. *)
Definition stateless {W A : Type} (m : M W A) (key : string) : Prop :=
  (forall p1 p2 : process W,
      raw_value p1 key = raw_value p2 key ->
      exists v cs, (length cs <= 1)%nat /\
                   m p1 = perform cs v p1 /\ m p2 = perform cs v p2)
  /\ (forall p v p',
         m p = Returned (v, p') ->
         environ p' = environ p /\ Log_var p' = Log_var p).

(** Two calls in succession: if both return, they return the same value,
    and each adds the same entries, at most one, to the history of hook
    invocations. *)
Definition idempotent {W A : Type} (m : M W A) : Prop :=
  forall p v1 p1 v2 p2,
    m p = Returned (v1, p1) -> m p1 = Returned (v2, p2) ->
    v1 = v2 /\
    exists cs, (length cs <= 1)%nat /\
               calls p1 = calls p ++ cs /\ calls p2 = calls p1 ++ cs.

(** The Unicode lowering never produces a token or the empty string from a
    string with a byte outside ASCII (in Go's tables the only characters
    outside ASCII whose lower case is inside are U+0130 and U+212A, which
    give [i] and [k]). *)
Definition unicode_lower_no_token (L : golib) : Prop :=
  forall s, fst (strings.scan s false) = false ->
    strings_Map_unicode_ToLower L s <> EmptyString /\
    forall tok b, (tok, b) ∈ bool_tokens ->
                  strings_Map_unicode_ToLower L s <> tok.

(** A duration written as magnitudes and units: each magnitude a run of
    decimal digits, each unit one of the table. *)
Fixpoint write_pairs (ps : list (string * string)) : string :=
  match ps with
  | [] => EmptyString
  | (ds, u) :: ps' => ds +:+ u +:+ write_pairs ps'
  end.

(** The number of nanoseconds it denotes. *)
Fixpoint pairs_value (ps : list (string * string)) : option Z :=
  match ps with
  | [] => Some 0
  | (ds, u) :: ps' =>
      match unsigned_literal ds, time.unitMap u, pairs_value ps' with
      | Some n, Some k, Some t => Some (n * k + t)
      | _, _, _ => None
      end
  end.

(** ** Auxiliary definitions *)

(** The string is empty or starts with a digit. *)
Definition digit_next (s : string) : bool :=
  match s with
  | EmptyString => true
  | String c _ => time.is_digit (byte c)
  end.

(** The string is empty or starts with a digit or a dot: a unit ends
    there. *)
Definition unit_end (s : string) : bool :=
  match s with
  | EmptyString => true
  | String c _ => (byte c =? 46) || time.is_digit (byte c)
  end.

(** No byte of the string is a digit or a dot. *)
Fixpoint unit_bytes (s : string) : bool :=
  match s with
  | EmptyString => true
  | String c s' => negb ((byte c =? 46) || time.is_digit (byte c)) && unit_bytes s'
  end.

Definition pow10 (s : string) : Z := 10 ^ Z.of_nat (String.length s).

Definition maxVal (a : arch) : Z := to_uint64 (2 ^ intSize a - 1).
Definition cutoff10 : Z := strconv.maxUint64 / 10 + 1.

(** The result of reading the literal of the number [z] into an [int]. *)
Definition literal_result (fn : string) (a : arch) (s : string) (z : Z) : result Z :=
  if z <? minInt a then (minInt a, Some (strconv.rangeError fn s))
  else if maxInt a <? z then (maxInt a, Some (strconv.rangeError fn s))
  else (z, None).

(** Case analysis on every integer comparison of the goal. *)
Ltac zcases :=
  repeat match goal with
    | |- context [?x <? ?y] => destruct (Z.ltb_spec x y); try lia
    | |- context [?x <=? ?y] => destruct (Z.leb_spec x y); try lia
    end.

(** [ParseInt] after the sign has been picked off. *)
Definition ParseInt_unsigned (a : arch) (s0 : string) (neg : bool) (s : string)
  : result Z :=
  match strconv.ParseUint a s with
  | (un, Some e) =>
      if negb (strconv.is_ErrRange e)
      then (0, Some (strconv.set_Num s0 (strconv.set_Func "ParseInt" e)))
      else strconv.ParseInt_range a s0 neg un
  | (un, None) => strconv.ParseInt_range a s0 neg un
  end.

(** A byte of a token: ASCII and not an upper-case letter. *)
Definition lower_byte (c : ascii) : bool :=
  (byte c <? 128) && negb ((65 <=? byte c) && (byte c <=? 90)).

Fixpoint lower_bytes (s : string) : bool :=
  match s with
  | EmptyString => true
  | String c s' => lower_byte c && lower_bytes s'
  end.

Definition getenv {W : Type} (p : process W) (key : string) : string :=
  default EmptyString (raw_value p key).

(** What a call does, as a value and the hook calls made before it is
    returned. *)
Definition plan (A : Type) : Type := (A * list (string * error))%type.

Definition run {W A : Type} (pl : plan A) : M W A := perform (snd pl) (fst pl).

(** The shape shared by [Int], [Float64], [Duration] and the [Bool] of
    src/env.go: an empty string gives the default, a parsed value is
    returned, an error goes to the hook and the default is returned. *)
Definition parse_plan {A : Type} (parse : string -> result A)
           (key : string) (def : A) (s : string) : plan A :=
  if negb (String.eqb s "") then
    match parse s with
    | (d, None) => (d, [])
    | (_, Some err) => (def, [(key, err)])
    end
  else (def, []).

Definition String_plan (key def : string) (s : string) : plan string :=
  (if negb (String.eqb s "") then s else def, []).

Definition Bool_plan (L : golib) (key : string) (def : bool) (raw : string)
  : plan bool :=
  let s := strings.ToLower L raw in
  if existsb (String.eqb s) ["true"; "t"; "1"]%string then (true, [])
  else if existsb (String.eqb s) ["false"; "f"; "0"]%string then (false, [])
  else if negb (String.eqb s "")
       then (def, [(key, fmt.Errorf "unknown bool value: '%s'" s)])
       else (def, []).


(** The two versions of [Bool] differ on the raw value [s]: some call on a
    variable bound to [s] has not the same outcome in both. *)
Definition variants_disagree_on (L : golib) (s : string) : Prop :=
  exists (W : Type) (p : process W) (key : string) (def : bool),
    raw_value p key = Some s /\ env_go.Bool key def p <> env.Bool L key def p.

(** A library for the examples: 64-bit words, a [ParseFloat] that accepts
    nothing, and the identity where the Unicode tables would be used. *)
Definition example_lib : golib :=
  GoLib Bits64
        (fun s _ => (S754_zero false, Some (strconv.syntaxError "ParseFloat" s)))
        (fun s => s).

Definition example_environ : gmap string string :=
  list_to_map
    [("DEBUG", "tRuE"); ("VERBOSE", "YES"); ("COLOR", "yes"); ("ONE", "1");
     ("ZERO", "0"); ("PORT", "42"); ("OFFSET", "-7"); ("RATIO", "3.5");
     ("HUGE", "9223372036854775808"); ("TIMEOUT", "1h30m");
     ("PAUSE", "notaduration"); ("EMPTY", "")]%string.

(** A process with the hook the package starts with and nothing logged. *)
Definition example_process : process log.output :=
  Process example_environ env.Log_init [] [].



(** The value a call returned, and the hook calls on record after it. *)
Definition returned_value {W A : Type} (o : outcome (A * process W)) : option A :=
  match o with Returned (v, _) => Some v | Panicked _ => None end.

Definition recorded_calls {W A : Type} (o : outcome (A * process W))
  : list (string * error) :=
  match o with Returned (_, p) => calls p | Panicked _ => [] end.

(** [matches_no_token], decided. *)
Definition matches_no_tokenb (raw : string) : bool :=
  forallb (fun tb : string * bool => negb (equal_fold raw (fst tb))) bool_tokens.

(** ** Further definitions *)

(** The spellings [strconv.ParseBool] accepts, with their booleans. *)
Definition ParseBool_spellings : list (string * bool) :=
  [("1", true); ("t", true); ("T", true); ("true", true); ("TRUE", true);
   ("True", true); ("0", false); ("f", false); ("F", false);
   ("false", false); ("FALSE", false); ("False", false)]%string.

(** What a call that returned has reported: nothing, the world and the
    record of hook calls being as they were, or one completed run of the
    installed hook on [key] and some error, from the world the call started
    in to the world it ends in. *)
Definition reported_by {W : Type} (key : string) (p p' : process W) : Prop :=
  (world p' = world p /\ calls p' = calls p)
  \/ exists err, Log_var p key err (world p) = Returned (world p')
                 /\ calls p' = calls p ++ [(key, err)].

(** The entry the initial hook writes for a call. *)
Definition log_entry (c : string * error) : string * string * error :=
  ("error while parsing %s: %v"%string, fst c, snd c).

(** The process with its environment replaced. *)
Definition with_environ {W : Type} (e : gmap string string) (p : process W)
  : process W :=
  Process e (Log_var p) (world p) (calls p).

(** A plan with no call of the hook, or one call on [key]. *)
Definition keyed {A : Type} (key : string) (pl : plan A) : Prop :=
  snd pl = [] \/ exists err, snd pl = [(key, err)].

(** What a call that returned under the initial hook has done: nothing, or
    one entry in the log, made of the format, [key] and the error. *)
Definition logged_by (key : string) (p p' : process log.output) : Prop :=
  p' = p
  \/ exists err,
       p' = Process (environ p) env.Log_init
                    (world p ++ [log_entry (key, err)])
                    (calls p ++ [(key, err)]).

(** * Properties *)

(** ** Decimal literals *)

Lemma byte_range (c : ascii) : 0 <= byte c < 256.
Proof.
  unfold byte. pose proof (N_ascii_bounded c). lia.
Qed.

Lemma to_int_small a z : minInt a <= z <= maxInt a -> to_int a z = z.
Proof.
  unfold to_int, minInt, maxInt. destruct a; simpl intSize; intros H.
  - change (2 ^ (32 - 1)) with 2147483648 in *.
    change (2 ^ 32) with 4294967296.
    rewrite Z.mod_small; lia.
  - change (2 ^ (64 - 1)) with 9223372036854775808 in *.
    change (2 ^ 64) with 18446744073709551616.
    rewrite Z.mod_small; lia.
Qed.

Lemma pow10_cons c s : pow10 (String c s) = 10 * pow10 s.
Proof.
  unfold pow10. simpl String.length. rewrite Nat2Z.inj_succ, Z.pow_succ_r; lia.
Qed.

Lemma pow10_pos s : 1 <= pow10 s.
Proof. unfold pow10. pose proof (Z.pow_pos_nonneg 10 (Z.of_nat (String.length s))). lia. Qed.

Lemma pow10_le s n : (String.length s <= n)%nat -> pow10 s <= 10 ^ Z.of_nat n.
Proof. intros H. unfold pow10. apply Z.pow_le_mono_r; lia. Qed.

(** The value of a run of digits lies between [acc] shifted left by the
    length of the run and the next such number. *)
Lemma digits_value_bounds s : forall acc v,
  0 <= acc -> digits_value s acc = Some v ->
  acc * pow10 s <= v < (acc + 1) * pow10 s.
Proof.
  induction s as [|c s IH]; intros acc v Hacc H; simpl in H.
  - injection H as <-. unfold pow10; simpl. lia.
  - destruct ((48 <=? byte c) && (byte c <=? 57)) eqn:Hd; [|discriminate].
    apply andb_prop in Hd as [H1 H2].
    apply Z.leb_le in H1. apply Z.leb_le in H2.
    apply IH in H; [|lia]. rewrite pow10_cons.
    pose proof (pow10_pos s). nia.
Qed.

Lemma digits_value_ge s acc v :
  0 <= acc -> digits_value s acc = Some v -> acc <= v.
Proof.
  intros Hacc H. pose proof (digits_value_bounds s acc v Hacc H).
  pose proof (pow10_pos s). nia.
Qed.

(** The fast path of [Atoi] reads the digits without overflow. *)
Lemma Atoi_digits_value a s : forall n,
  0 <= n -> (n + 1) * pow10 s <= maxInt a + 1 ->
  strconv.Atoi_digits a s n = digits_value s n.
Proof.
  induction s as [|c s IH]; intros n Hn Hb; simpl; [reflexivity|].
  pose proof (byte_range c) as Hc.
  rewrite pow10_cons in Hb. pose proof (pow10_pos s) as Hp.
  destruct ((48 <=? byte c) && (byte c <=? 57)) eqn:Hd.
  - apply andb_prop in Hd as [H1 H2].
    apply Z.leb_le in H1. apply Z.leb_le in H2.
    rewrite (Z.mod_small (byte c - 48)) by lia.
    destruct (9 <? byte c - 48) eqn:H9; [apply Z.ltb_lt in H9; lia|].
    assert (Hmin : minInt a <= 0) by (destruct a; unfold minInt; simpl; lia).
    rewrite (to_int_small a (n * 10)) by nia.
    rewrite to_int_small by nia.
    apply IH; nia.
  - assert (9 < (byte c - 48) mod 256) as H9.
    { apply andb_false_iff in Hd as [H1|H2].
      - apply Z.leb_gt in H1.
        replace (byte c - 48) with (byte c + 208 + (-1) * 256) by lia.
        rewrite Z.mod_add by lia. rewrite Z.mod_small; lia.
      - apply Z.leb_gt in H2. rewrite Z.mod_small; lia. }
    apply Z.ltb_lt in H9. rewrite H9. reflexivity.
Qed.

Lemma maxVal_eq a : maxVal a = 2 * maxInt a + 1.
Proof. destruct a; reflexivity. Qed.

Lemma maxInt_cases a : maxInt a = 2147483647 \/ maxInt a = 9223372036854775807.
Proof. destruct a; [left|right]; reflexivity. Qed.

Lemma ParseUint_loop_spec a s0 s : forall n,
  0 <= n <= maxVal a ->
  match digits_value s n with
  | Some v =>
      strconv.ParseUint_loop s0 cutoff10 (maxVal a) s n =
      if v <=? maxVal a then (v, None)
      else (maxVal a, Some (strconv.rangeError "ParseUint" s0))
  | None =>
      strconv.ParseUint_loop s0 cutoff10 (maxVal a) s n =
        (0, Some (strconv.syntaxError "ParseUint" s0))
      \/ strconv.ParseUint_loop s0 cutoff10 (maxVal a) s n =
        (maxVal a, Some (strconv.rangeError "ParseUint" s0))
  end.
Proof.
  induction s as [|c s IH]; intros n Hn; simpl.
  - destruct (Z.leb_spec n (maxVal a)); [reflexivity|lia].
  - pose proof (byte_range c) as Hc.
    assert (Hmv : maxVal a <= 18446744073709551615).
    { rewrite maxVal_eq. destruct (maxInt_cases a) as [->| ->]; lia. }
    destruct ((48 <=? byte c) && (byte c <=? 57)) eqn:Hd.
    + apply andb_prop in Hd as [H1 H2].
      apply Z.leb_le in H1. apply Z.leb_le in H2.
      destruct (10 <=? byte c - 48) eqn:H10; [apply Z.leb_le in H10; lia|].
      unfold cutoff10 at 1 3 5. unfold strconv.maxUint64.
      change (((2 ^ 64 - 1) / 10 + 1)) with 1844674407370955162.
      fold cutoff10.
      destruct (Z.leb_spec 1844674407370955162 n) as [Hcut|Hcut].
      * (* n * 10 overflows *)
        destruct (digits_value s (n * 10 + (byte c - 48))) as [v|] eqn:Hv.
        -- apply digits_value_ge in Hv; [|lia].
           destruct (Z.leb_spec v (maxVal a)); [lia|reflexivity].
        -- right; reflexivity.
      * unfold to_uint64. change (2 ^ 64) with 18446744073709551616.
        rewrite (Z.mod_small (n * 10)) by lia.
        destruct (Z_lt_le_dec (n * 10 + (byte c - 48)) 18446744073709551616) as [Hs|Hs].
        -- rewrite (Z.mod_small (n * 10 + (byte c - 48))) by lia.
           destruct (Z.ltb_spec (n * 10 + (byte c - 48)) (n * 10)); [lia|].
           simpl orb.
           destruct (Z.ltb_spec (maxVal a) (n * 10 + (byte c - 48))) as [Hm|Hm].
           ++ destruct (digits_value s (n * 10 + (byte c - 48))) as [v|] eqn:Hv.
              ** apply digits_value_ge in Hv; [|lia].
                 destruct (Z.leb_spec v (maxVal a)); [lia|reflexivity].
              ** right; reflexivity.
           ++ apply IH. lia.
        -- assert (Hw : (n * 10 + (byte c - 48)) mod 18446744073709551616
                        = n * 10 + (byte c - 48) - 18446744073709551616).
           { symmetry. apply (Z.mod_unique _ _ 1); lia. }
           rewrite Hw.
           destruct (Z.ltb_spec (n * 10 + (byte c - 48) - 18446744073709551616) (n * 10)); [|lia].
           simpl orb.
           destruct (digits_value s (n * 10 + (byte c - 48))) as [v|] eqn:Hv.
           ++ apply digits_value_ge in Hv; [|lia].
              destruct (Z.leb_spec v (maxVal a)); [lia|reflexivity].
           ++ right; reflexivity.
    + destruct ((97 <=? strconv.lower (byte c)) && (strconv.lower (byte c) <=? 122)) eqn:Hl.
      * apply andb_prop in Hl as [H1 H2].
        apply Z.leb_le in H1. apply Z.leb_le in H2.
        destruct (Z.leb_spec 10 (strconv.lower (byte c) - 97 + 10)); [|lia].
        left; reflexivity.
      * left; reflexivity.
Qed.

Lemma maxVal_bounds a : 0 <= maxVal a.
Proof. rewrite maxVal_eq. destruct (maxInt_cases a) as [->| ->]; lia. Qed.

Lemma ParseUint_spec a s :
  match unsigned_literal s with
  | Some v =>
      strconv.ParseUint a s =
      if v <=? maxVal a then (v, None)
      else (maxVal a, Some (strconv.rangeError "ParseUint" s))
  | None =>
      strconv.ParseUint a s = (0, Some (strconv.syntaxError "ParseUint" s))
      \/ strconv.ParseUint a s = (maxVal a, Some (strconv.rangeError "ParseUint" s))
  end.
Proof.
  destruct s as [|c s].
  - left; reflexivity.
  - pose proof (maxVal_bounds a).
    apply (ParseUint_loop_spec a (String c s) (String c s) 0). lia.
Qed.

Lemma to_int64_small z :
  - 9223372036854775808 <= z <= 9223372036854775807 -> to_int64 z = z.
Proof.
  intros H. unfold to_int64.
  change (2 ^ 63) with 9223372036854775808.
  change (2 ^ 64) with 18446744073709551616.
  rewrite Z.mod_small; lia.
Qed.

Lemma to_uint64_small z : 0 <= z <= 18446744073709551615 -> to_uint64 z = z.
Proof.
  intros H. unfold to_uint64. change (2 ^ 64) with 18446744073709551616.
  rewrite Z.mod_small; lia.
Qed.

Lemma ParseInt_range_spec a s0 (neg : bool) un :
  0 <= un <= maxVal a ->
  strconv.ParseInt_range a s0 neg un =
  literal_result "ParseInt" a s0 (if neg then - un else un).
Proof.
  intros Hun. unfold strconv.ParseInt_range, literal_result.
  rewrite maxVal_eq in Hun.
  destruct a; unfold minInt, maxInt in *; simpl intSize in *.
  - change (2 ^ (32 - 1)) with 2147483648 in *.
    rewrite (to_uint64_small 2147483648) by lia.
    rewrite (to_int64_small 2147483648) by lia.
    rewrite (to_int64_small (Z.opp 2147483648)) by lia.
    rewrite (to_int64_small (2147483648 - 1)) by lia.
    rewrite (to_int64_small un) by lia.
    destruct neg; simpl negb; simpl andb; zcases; try reflexivity.
    rewrite to_int64_small by lia. reflexivity.
  - change (2 ^ (64 - 1)) with 9223372036854775808 in *.
    rewrite (to_uint64_small 9223372036854775808) by lia.
    rewrite (to_int64_small (9223372036854775808 - 1)) by lia.
    change (to_int64 (- to_int64 9223372036854775808)) with (- 9223372036854775808).
    destruct neg; simpl negb; simpl andb; zcases; try reflexivity.
    + f_equal.
      destruct (Z.eq_dec un 9223372036854775808) as [->|Hne]; [reflexivity|].
      rewrite (to_int64_small un) by lia. apply to_int64_small. lia.
    + rewrite to_int64_small by lia. reflexivity.
Qed.

Lemma literal_result_clamp fn a s z v :
  maxVal a < v -> 0 <= z -> v <= z -> forall neg : bool,
  literal_result fn a s (if neg then - maxVal a else maxVal a)
  = literal_result fn a s (if neg then - z else z).
Proof.
  intros Hv Hz Hvz neg. unfold literal_result. rewrite maxVal_eq in *.
  assert (minInt a = - maxInt a - 1) as -> by (destruct a; reflexivity).
  destruct (maxInt_cases a) as [E|E]; rewrite E in *; destruct neg.
  all: zcases; reflexivity.
Qed.

Lemma unsigned_literal_nonneg s v : unsigned_literal s = Some v -> 0 <= v.
Proof.
  destruct s; [discriminate|]. unfold unsigned_literal.
  intros H. apply digits_value_ge in H; lia.
Qed.

Lemma literal_result_maxVal fn a s (neg : bool) :
  exists v, literal_result fn a s (if neg then - maxVal a else maxVal a)
            = (v, Some (strconv.rangeError fn s)).
Proof.
  unfold literal_result. rewrite maxVal_eq.
  assert (minInt a = - maxInt a - 1) as -> by (destruct a; reflexivity).
  destruct (maxInt_cases a) as [E|E]; rewrite E; destruct neg; zcases; eauto.
Qed.

Lemma ParseInt_unsigned_spec a s0 neg s :
  match unsigned_literal s with
  | Some v =>
      ParseInt_unsigned a s0 neg s
      = literal_result "ParseInt" a s0 (if neg then - v else v)
  | None =>
      ParseInt_unsigned a s0 neg s = (0, Some (strconv.syntaxError "ParseInt" s0))
      \/ exists v, ParseInt_unsigned a s0 neg s
                   = (v, Some (strconv.rangeError "ParseInt" s0))
  end.
Proof.
  unfold ParseInt_unsigned. pose proof (ParseUint_spec a s) as H.
  pose proof (maxVal_bounds a) as Hm.
  destruct (unsigned_literal s) as [v|] eqn:Hv.
  - apply unsigned_literal_nonneg in Hv. rewrite H.
    destruct (Z.leb_spec v (maxVal a)) as [Hle|Hgt].
    + apply ParseInt_range_spec. lia.
    + simpl. rewrite ParseInt_range_spec by lia.
      apply (literal_result_clamp _ a s0 v v); lia.
  - destruct H as [-> | ->]; simpl.
    + left; reflexivity.
    + right. rewrite ParseInt_range_spec by lia. apply literal_result_maxVal.
Qed.

Lemma ParseInt_spec a s :
  match int_literal s with
  | Some z => strconv.ParseInt a s = literal_result "ParseInt" a s z
  | None =>
      strconv.ParseInt a s = (0, Some (strconv.syntaxError "ParseInt" s))
      \/ exists v, strconv.ParseInt a s = (v, Some (strconv.rangeError "ParseInt" s))
  end.
Proof.
  destruct s as [|c0 rest]; [left; reflexivity|].
  unfold int_literal, strconv.ParseInt.
  destruct (Ascii.eqb_spec c0 "+") as [->|Hp].
  - simpl orb. change (Ascii.eqb "+" "-") with false.
    apply (ParseInt_unsigned_spec a (String "+" rest) false rest).
  - destruct (Ascii.eqb_spec c0 "-") as [->|Hm].
    + simpl orb.
      pose proof (ParseInt_unsigned_spec a (String "-" rest) true rest) as H.
      destruct (unsigned_literal rest); exact H.
    + simpl orb.
      apply (ParseInt_unsigned_spec a (String c0 rest) false (String c0 rest)).
Qed.

Lemma literal_result_to_int a s z :
  (let '(i64, err) := literal_result "ParseInt" a s z in
   (to_int a i64, strconv.set_Func "Atoi" <$> err))
  = literal_result "Atoi" a s z.
Proof.
  unfold literal_result.
  assert (Hmm : minInt a <= maxInt a) by (destruct a; unfold minInt, maxInt; simpl; lia).
  zcases; simpl; rewrite to_int_small by lia; reflexivity.
Qed.

Lemma Atoi_slow_spec a s :
  match int_literal s with
  | Some z =>
      (let '(i64, err) := strconv.ParseInt a s in
       (to_int a i64, strconv.set_Func "Atoi" <$> err))
      = literal_result "Atoi" a s z
  | None =>
      (let '(i64, err) := strconv.ParseInt a s in
       (to_int a i64, strconv.set_Func "Atoi" <$> err))
      = (0, Some (strconv.syntaxError "Atoi" s))
      \/ exists v, (let '(i64, err) := strconv.ParseInt a s in
                    (to_int a i64, strconv.set_Func "Atoi" <$> err))
                   = (v, Some (strconv.rangeError "Atoi" s))
  end.
Proof.
  pose proof (ParseInt_spec a s) as H.
  destruct (int_literal s) as [z|].
  - rewrite H. apply literal_result_to_int.
  - destruct H as [-> | [v ->]].
    + left. simpl. f_equal. apply to_int_small.
      destruct a; unfold minInt, maxInt; simpl; lia.
    + right. eexists. reflexivity.
Qed.

Lemma pow10_fast a s :
  Z.of_nat (String.length s) < (match a with Bits32 => 10 | Bits64 => 19 end) ->
  pow10 s <= maxInt a + 1.
Proof.
  intros H. destruct a.
  - etransitivity; [apply (pow10_le s 9); lia|]. unfold maxInt; simpl. lia.
  - etransitivity; [apply (pow10_le s 18); lia|]. unfold maxInt; simpl. lia.
Qed.

Lemma Atoi_fast_digits a s :
  s <> EmptyString ->
  Z.of_nat (String.length s) < (match a with Bits32 => 10 | Bits64 => 19 end) ->
  match unsigned_literal s with
  | Some n => strconv.Atoi_digits a s 0 = Some n /\ 0 <= n <= maxInt a
  | None => strconv.Atoi_digits a s 0 = None
  end.
Proof.
  intros Hne Hlen. pose proof (pow10_fast a s Hlen) as Hp.
  rewrite Atoi_digits_value by lia.
  destruct s as [|c s]; [done|]. unfold unsigned_literal.
  destruct (digits_value (String c s) 0) as [n|] eqn:Hn; [|reflexivity].
  apply digits_value_bounds in Hn; [|lia]. split; [reflexivity|lia].
Qed.

(** [Atoi] on a literal, and on anything else. *)
Lemma Atoi_spec a s :
  match int_literal s with
  | Some z => strconv.Atoi a s = literal_result "Atoi" a s z
  | None =>
      strconv.Atoi a s = (0, Some (strconv.syntaxError "Atoi" s))
      \/ exists v, strconv.Atoi a s = (v, Some (strconv.rangeError "Atoi" s))
  end.
Proof.
  unfold strconv.Atoi.
  destruct ((0 <? Z.of_nat (String.length s))
            && (Z.of_nat (String.length s) <? match a with Bits32 => 10 | Bits64 => 19 end))
    eqn:Hfast; [|apply Atoi_slow_spec].
  apply andb_prop in Hfast as [_ Hlen]. apply Z.ltb_lt in Hlen.
  destruct s as [|c0 rest]; [left; reflexivity|].
  assert (Hrest : Z.of_nat (String.length rest)
                  < match a with Bits32 => 10 | Bits64 => 19 end).
  { simpl String.length in Hlen. lia. }
  assert (Hmin : minInt a = - maxInt a - 1) by (destruct a; reflexivity).
  unfold int_literal.
  destruct (Ascii.eqb_spec c0 "-") as [->|Hm].
  - change (Ascii.eqb "-" "+") with false. simpl orb. simpl andb.
    destruct rest as [|c1 rest]; [left; reflexivity|].
    change (Z.of_nat (String.length (String c1 rest)) <? 1)
      with (Z.of_nat (S (String.length rest)) <? 1).
    destruct (Z.ltb_spec (Z.of_nat (S (String.length rest))) 1); [lia|].
    pose proof (Atoi_fast_digits a (String c1 rest) ltac:(done) Hrest) as HA.
    destruct (unsigned_literal (String c1 rest)) as [n|].
    + destruct HA as [-> Hn]. simpl fmap. unfold literal_result.
      rewrite to_int_small by lia. zcases. reflexivity.
    + rewrite HA. left; reflexivity.
  - destruct (Ascii.eqb_spec c0 "+") as [->|Hp].
    + simpl orb. simpl andb.
      destruct rest as [|c1 rest]; [left; reflexivity|].
      change (Z.of_nat (String.length (String c1 rest)) <? 1)
        with (Z.of_nat (S (String.length rest)) <? 1).
      destruct (Z.ltb_spec (Z.of_nat (S (String.length rest))) 1); [lia|].
      pose proof (Atoi_fast_digits a (String c1 rest) ltac:(done) Hrest) as HA.
      destruct (unsigned_literal (String c1 rest)) as [n|].
      * destruct HA as [-> Hn]. unfold literal_result. zcases. reflexivity.
      * rewrite HA. left; reflexivity.
    + simpl orb. simpl andb.
      pose proof (Atoi_fast_digits a (String c0 rest) ltac:(done) Hlen) as HA.
      destruct (unsigned_literal (String c0 rest)) as [n|].
      * destruct HA as [-> Hn]. unfold literal_result. zcases. reflexivity.
      * rewrite HA. left; reflexivity.
Qed.

(** ** Lower case *)

Lemma byte_of_byte c : byte_of (byte c) = c.
Proof.
  unfold byte_of, byte. pose proof (N_ascii_bounded c).
  rewrite Z.mod_small by lia. rewrite N2Z.id. apply ascii_N_embedding.
Qed.

Lemma byte_byte_of z : 0 <= z < 256 -> byte (byte_of z) = z.
Proof.
  intros H. unfold byte, byte_of. rewrite Z.mod_small by lia.
  rewrite N_ascii_embedding by lia. lia.
Qed.

Lemma scan_no_upper s : forall h,
  strings.scan s h = (true, false) -> strings.lower_ascii s = s.
Proof.
  induction s as [|c s IH]; intros h H; simpl in *; [reflexivity|].
  destruct (128 <=? byte c); [discriminate|].
  destruct ((65 <=? byte c) && (byte c <=? 90)) eqn:Hu.
  - rewrite orb_true_r in H.
    assert (Hup : forall t, snd (strings.scan t true) = true).
    { clear. induction t as [|c t IH]; simpl; [reflexivity|].
      destruct (128 <=? byte c); [reflexivity|]. apply IH. }
    specialize (Hup s). rewrite H in Hup. discriminate.
  - f_equal. eapply IH. exact H.
Qed.

(** On a pure-ASCII string [ToLower] is the byte-wise lowering, whatever
    the Unicode tables are. *)
Lemma ToLower_ascii L s :
  fst (strings.scan s false) = true -> strings.ToLower L s = strings.lower_ascii s.
Proof.
  intros H. unfold strings.ToLower.
  destruct (strings.scan s false) as [isASCII hasUpper] eqn:Hs.
  simpl in H. subst isASCII.
  destruct hasUpper; simpl; [reflexivity|].
  symmetry. eapply scan_no_upper. exact Hs.
Qed.

Lemma ToLower_non_ascii L s :
  fst (strings.scan s false) = false ->
  strings.ToLower L s = strings_Map_unicode_ToLower L s.
Proof.
  intros H. unfold strings.ToLower.
  destruct (strings.scan s false) as [isASCII hasUpper].
  simpl in H. subst isASCII. reflexivity.
Qed.

Lemma same_letter_lower c d :
  same_letter c d = true -> lower_byte d = true ->
  byte c < 128 /\
  (if (65 <=? byte c) && (byte c <=? 90) then byte_of (byte c + 32) else c) = d.
Proof.
  unfold same_letter, lower_byte. intros H Hd.
  pose proof (byte_range c) as Rc. pose proof (byte_range d) as Rd.
  apply andb_prop in Hd as [Hd1 Hd2]. apply Z.ltb_lt in Hd1.
  apply negb_true_iff in Hd2.
  apply orb_prop in H as [H|H]; [apply orb_prop in H as [H|H]|].
  - apply Ascii.eqb_eq in H. subst d. rewrite Hd2. split; [lia|reflexivity].
  - apply andb_prop in H as [H H3]. apply andb_prop in H as [H1 H2].
    rewrite H1, H2. simpl. apply Z.eqb_eq in H3.
    apply Z.leb_le in H1. apply Z.leb_le in H2.
    split; [lia|]. rewrite <- H3. apply byte_of_byte.
  - apply andb_prop in H as [H H3]. apply andb_prop in H as [H1 H2].
    apply Z.eqb_eq in H3. apply Z.leb_le in H1. apply Z.leb_le in H2.
    apply andb_false_iff in Hd2 as [Hd2|Hd2];
      [apply Z.leb_gt in Hd2|apply Z.leb_gt in Hd2]; lia.
Qed.

Lemma equal_fold_lower s : forall t h,
  equal_fold s t = true -> lower_bytes t = true ->
  fst (strings.scan s h) = true /\ strings.lower_ascii s = t.
Proof.
  induction s as [|c s IH]; intros [|d t] h H Ht; simpl in *; try discriminate.
  - split; reflexivity.
  - apply andb_prop in H as [Hc H]. apply andb_prop in Ht as [Hd Ht].
    destruct (same_letter_lower c d Hc Hd) as [Hlt Heq].
    destruct (Z.leb_spec 128 (byte c)); [lia|].
    destruct (IH t (h || (65 <=? byte c) && (byte c <=? 90)) H Ht) as [-> ->].
    rewrite Heq. split; reflexivity.
Qed.

(** Matching a token without regard to case is being lowered to it. *)
Lemma ToLower_token L raw tok :
  equal_fold raw tok = true -> lower_bytes tok = true ->
  strings.ToLower L raw = tok.
Proof.
  intros H Ht. destruct (equal_fold_lower raw tok false H Ht) as [Hs Hl].
  rewrite ToLower_ascii by exact Hs. exact Hl.
Qed.

Lemma lower_ascii_equal_fold s : equal_fold s (strings.lower_ascii s) = true.
Proof.
  induction s as [|c s IH]; simpl; [reflexivity|].
  rewrite IH, andb_true_r. unfold same_letter.
  pose proof (byte_range c) as Rc.
  destruct ((65 <=? byte c) && (byte c <=? 90)) eqn:Hu.
  - apply andb_prop in Hu as [H1 H2].
    apply Z.leb_le in H1. apply Z.leb_le in H2.
    rewrite byte_byte_of by lia. rewrite Z.eqb_refl. simpl.
    rewrite orb_true_r. reflexivity.
  - rewrite Ascii.eqb_refl. reflexivity.
Qed.

Lemma lower_ascii_empty s : strings.lower_ascii s = EmptyString -> s = EmptyString.
Proof. destruct s; [reflexivity|discriminate]. Qed.

(** The tokens the switch of [Bool] compares with are the six of the
    specification. *)
Lemma bool_tokens_lower tok b : (tok, b) ∈ bool_tokens -> lower_bytes tok = true.
Proof.
  unfold bool_tokens. intros H.
  repeat (apply elem_of_cons in H as [H|H]; [injection H as -> ->; reflexivity|]).
  apply elem_of_nil in H. destruct H.
Qed.

Lemma switch_true s :
  existsb (String.eqb s) ["true"; "t"; "1"]%string = true <-> (s, true) ∈ bool_tokens.
Proof.
  unfold bool_tokens. simpl. split.
  - intros H. repeat (apply orb_prop in H as [H|H];
      [apply String.eqb_eq in H; subst s; set_solver|]). discriminate.
  - intros H.
    repeat (apply elem_of_cons in H as [H|H];
            [first [discriminate H | injection H as ->; reflexivity]|]).
    apply elem_of_nil in H. destruct H.
Qed.

Lemma switch_false s :
  existsb (String.eqb s) ["false"; "f"; "0"]%string = true <-> (s, false) ∈ bool_tokens.
Proof.
  unfold bool_tokens. simpl. split.
  - intros H. repeat (apply orb_prop in H as [H|H];
      [apply String.eqb_eq in H; subst s; set_solver|]). discriminate.
  - intros H.
    repeat (apply elem_of_cons in H as [H|H];
            [first [discriminate H | injection H as ->; reflexivity]|]).
    apply elem_of_nil in H. destruct H.
Qed.

(** A value that matches no token is lowered to a non-empty string that is
    no token either. *)
Lemma ToLower_no_token L raw :
  unicode_lower_no_token L ->
  raw <> EmptyString -> matches_no_token raw ->
  strings.ToLower L raw <> EmptyString /\
  forall tok b, (tok, b) ∈ bool_tokens -> strings.ToLower L raw <> tok.
Proof.
  intros HL Hne Hno.
  destruct (fst (strings.scan raw false)) eqn:Hs.
  - rewrite ToLower_ascii by exact Hs. split.
    + intros H. apply lower_ascii_empty in H. contradiction.
    + intros tok b Hin Heq. specialize (Hno tok b Hin).
      rewrite <- Heq, lower_ascii_equal_fold in Hno. discriminate.
  - rewrite ToLower_non_ascii by exact Hs. apply HL. exact Hs.
Qed.

(** ** The loop of [ParseDuration] ends *)

Lemma leadingInt_length s : forall x v rest,
  time.leadingInt s x = Some (v, rest) ->
  (String.length rest <= String.length s)%nat.
Proof.
  induction s as [|c s IH]; intros x v rest H; simpl in H.
  - injection H as _ <-. reflexivity.
  - destruct ((byte c <? 48) || (57 <? byte c)).
    + injection H as _ <-. reflexivity.
    + destruct (2 ^ 63 / 10 <? x); [discriminate|].
      destruct (2 ^ 63 <? _); [discriminate|].
      apply IH in H. simpl. lia.
Qed.

Lemma leadingFraction_length s : forall x scale ov,
  (String.length (snd (time.leadingFraction s x scale ov)) <= String.length s)%nat.
Proof.
  induction s as [|c s IH]; intros x scale ov; simpl; [reflexivity|].
  destruct ((byte c <? 48) || (57 <? byte c)); [reflexivity|].
  destruct ov; [etransitivity; [apply IH|lia]|].
  destruct ((2 ^ 63 - 1) / 10 <? x); [etransitivity; [apply IH|lia]|].
  destruct (2 ^ 63 <? _); etransitivity; try apply IH; lia.
Qed.

Lemma span_unit_length s :
  String.length s
  = (String.length (fst (time.span_unit s)) + String.length (snd (time.span_unit s)))%nat.
Proof.
  induction s as [|c s IH]; simpl; [reflexivity|].
  destruct ((byte c =? 46) || time.is_digit (byte c)); [reflexivity|].
  destruct (time.span_unit s) as [u rest]. simpl in *. lia.
Qed.

(** One magnitude and its unit take at least one byte. *)
Lemma ParseDuration_pair_shorter orig s d s' d' :
  time.ParseDuration_pair orig s d = inr (s', d') ->
  (String.length s' < String.length s)%nat.
Proof.
  unfold time.ParseDuration_pair.
  destruct s as [|c s0]; [discriminate|].
  destruct (negb _); [discriminate|].
  destruct (time.leadingInt (String c s0) 0) as [[v s1]|] eqn:Hi; [|discriminate].
  apply leadingInt_length in Hi.
  set (frac := match s1 with
               | EmptyString => _
               | String p s2 => _
               end).
  assert (Hf : (String.length (snd frac) <= String.length s1)%nat).
  { subst frac. destruct s1 as [|p s2]; [reflexivity|].
    destruct (byte p =? 46); [|reflexivity].
    pose proof (leadingFraction_length s2 0 (time.f64_of_uint64 1) false) as Hl.
    destruct (time.leadingFraction s2 0 (time.f64_of_uint64 1) false) as [[f sc] s3].
    simpl in *. lia. }
  destruct frac as [[[post f] scale] s2]. simpl in Hf.
  destruct (negb _ && negb _); [discriminate|].
  pose proof (span_unit_length s2) as Hu.
  destruct (time.span_unit s2) as [u s3]. simpl in Hu.
  destruct (String.eqb_spec u "") as [->|Hne]; [discriminate|].
  destruct (time.unitMap u); [|discriminate].
  destruct (2 ^ 63 / z <? v); [discriminate|].
  destruct ((0 <? f) && _); [discriminate|].
  destruct (2 ^ 63 <? _); [discriminate|].
  intros H. injection H as <- _.
  destruct u; [done|]. simpl in Hu. lia.
Qed.

Lemma ParseDuration_loop_fuel orig : forall fuel s d,
  (String.length s < fuel)%nat ->
  time.ParseDuration_loop fuel orig s d <> None.
Proof.
  induction fuel as [|fuel IH]; intros s d Hlen; [lia|].
  destruct s as [|c s]; [discriminate|].
  cbn [time.ParseDuration_loop].
  destruct (time.ParseDuration_pair orig (String c s) d) as [e|[s' d']] eqn:Hp;
    [discriminate|].
  apply ParseDuration_pair_shorter in Hp. apply IH. lia.
Qed.

(** ** Durations written as magnitudes and units *)

Lemma append_length s t :
  String.length (s +:+ t) = (String.length s + String.length t)%nat.
Proof. induction s as [|c s IH]; simpl; [reflexivity|]. rewrite IH. reflexivity. Qed.

Lemma unitMap_unit u k :
  time.unitMap u = Some k ->
  u <> EmptyString /\ unit_bytes u = true /\ 1 <= k <= time.Hour.
Proof.
  unfold time.unitMap. intros H.
  repeat match type of H with
         | (if String.eqb u ?t then _ else _) = _ =>
             destruct (String.eqb_spec u t) as [->|_];
             [injection H as <-; split; [discriminate|split; [reflexivity|vm_compute; split; discriminate]]|]
         end.
  discriminate.
Qed.

Lemma leadingInt_digits ds : forall rest x n,
  digits_value ds x = Some n -> 0 <= x -> n <= 2 ^ 63 ->
  match rest with
  | EmptyString => True
  | String c _ => time.is_digit (byte c) = false
  end ->
  time.leadingInt (ds +:+ rest) x = Some (n, rest).
Proof.
  induction ds as [|c ds IH]; intros rest x n Hn Hx Hmax Hrest; simpl in *.
  - injection Hn as <-. destruct rest as [|r rest]; [reflexivity|].
    simpl. unfold time.is_digit in Hrest.
    destruct (Z.ltb_spec (byte r) 48), (Z.ltb_spec 57 (byte r)); simpl; try reflexivity.
    destruct (Z.leb_spec 48 (byte r)), (Z.leb_spec (byte r) 57); simpl in Hrest;
      try discriminate; lia.
  - destruct ((48 <=? byte c) && (byte c <=? 57)) eqn:Hd; [|discriminate].
    apply andb_prop in Hd as [H1 H2].
    apply Z.leb_le in H1. apply Z.leb_le in H2.
    destruct (Z.ltb_spec (byte c) 48), (Z.ltb_spec 57 (byte c)); try lia. simpl.
    assert (Hge : x * 10 + (byte c - 48) <= n)
      by (apply (digits_value_ge ds); [lia | exact Hn]).
    change (2 ^ 63) with 9223372036854775808 in *.
    change (9223372036854775808 / 10) with 922337203685477580.
    destruct (Z.ltb_spec 922337203685477580 x); [lia|].
    rewrite (to_uint64_small (x * 10)) by lia.
    rewrite (to_uint64_small (x * 10 + byte c)) by lia.
    rewrite (to_uint64_small (x * 10 + byte c - 48)) by lia.
    destruct (Z.ltb_spec 9223372036854775808 (x * 10 + byte c - 48)); [lia|].
    replace (x * 10 + byte c - 48) with (x * 10 + (byte c - 48)) by lia.
    apply IH; try assumption; lia.
Qed.

Lemma span_unit_app u : forall rest,
  unit_bytes u = true -> digit_next rest = true ->
  time.span_unit (u +:+ rest) = (u, rest).
Proof.
  induction u as [|c u IH]; intros rest Hu Hr; simpl in *.
  - destruct rest as [|r rest]; [reflexivity|]. simpl in *.
    rewrite Hr, orb_true_r. reflexivity.
  - apply andb_prop in Hu as [Hc Hu]. apply negb_true_iff in Hc.
    rewrite Hc. rewrite (IH rest Hu Hr). reflexivity.
Qed.

Lemma write_pairs_digit_next ps t :
  pairs_value ps = Some t -> digit_next (write_pairs ps) = true.
Proof.
  destruct ps as [|[ds u] ps]; [reflexivity|]. simpl.
  destruct (unsigned_literal ds) as [n|] eqn:Hn; [|discriminate].
  intros _. destruct ds as [|c ds]; [discriminate|]. simpl in *.
  unfold time.is_digit.
  destruct ((48 <=? byte c) && (byte c <=? 57)); [reflexivity|discriminate].
Qed.

Lemma unsigned_literal_digit ds n :
  unsigned_literal ds = Some n ->
  exists c ds', ds = String c ds' /\ time.is_digit (byte c) = true
                /\ digits_value ds 0 = Some n.
Proof.
  destruct ds as [|c ds']; [discriminate|]. intros H.
  exists c, ds'. split; [reflexivity|]. split; [|exact H].
  simpl in H. unfold time.is_digit.
  destruct ((48 <=? byte c) && (byte c <=? 57)); [reflexivity|discriminate].
Qed.

(** One magnitude with its unit adds the product to the total. *)
Lemma ParseDuration_pair_value orig ds u rest d n k :
  unsigned_literal ds = Some n -> time.unitMap u = Some k ->
  digit_next rest = true ->
  0 <= d -> d + n * k <= 2 ^ 63 ->
  time.ParseDuration_pair orig (ds +:+ u +:+ rest) d = inr (rest, d + n * k).
Proof.
  intros Hn Hk Hrest Hd Hsum.
  destruct (unsigned_literal_digit ds n Hn) as (c & ds' & -> & Hc & Hv).
  destruct (unitMap_unit u k Hk) as (Hne & Hu & Hk1 & Hk2).
  destruct u as [|q u']; [done|].
  pose proof Hu as Hu0. simpl in Hu0. apply andb_prop in Hu0 as [Hq _].
  apply negb_true_iff in Hq. apply orb_false_iff in Hq as [Hq46 Hqd].
  assert (Hn0 : 0 <= n) by (apply (digits_value_ge _ 0 n) in Hv; lia).
  assert (Hnk : n <= n * k) by nia.
  change (2 ^ 63) with 9223372036854775808 in *.
  unfold time.ParseDuration_pair.
  change (String c ds' +:+ String q u' +:+ rest)
    with (String c (ds' +:+ String q u' +:+ rest)).
  cbv iota beta. rewrite Hc, orb_true_r. cbn [negb].
  change (String c (ds' +:+ String q u' +:+ rest))
    with (String c ds' +:+ (String q u' +:+ rest)).
  rewrite (leadingInt_digits (String c ds') (String q u' +:+ rest) 0 n Hv);
    [|lia|change (2 ^ 63) with 9223372036854775808; lia|exact Hqd].
  rewrite !append_length.
  replace (Nat.eqb _ _) with false
    by (symmetry; apply Nat.eqb_neq; simpl String.length; lia).
  change (String q u' +:+ rest) with (String q (u' +:+ rest)) at 1.
  cbv iota beta. rewrite Hq46. cbn [negb andb].
  rewrite (span_unit_app (String q u') rest Hu Hrest).
  cbv iota beta. change (String.eqb (String q u') "") with false. cbv iota.
  rewrite Hk.
  change (2 ^ 63) with 9223372036854775808.
  assert (Hdiv : n <= 9223372036854775808 / k)
    by (apply Z.div_le_lower_bound; nia).
  destruct (Z.ltb_spec (9223372036854775808 / k) n); [lia|].
  change (0 <? 0) with false. cbn [andb].
  rewrite (to_uint64_small (n * k)) by lia.
  rewrite (to_uint64_small (d + n * k)) by lia.
  destruct (Z.ltb_spec 9223372036854775808 (d + n * k)); [lia|].
  reflexivity.
Qed.

Lemma pairs_value_nonneg ps : forall t, pairs_value ps = Some t -> 0 <= t.
Proof.
  induction ps as [|[ds u] ps IH]; intros t H; simpl in H.
  - injection H as <-. lia.
  - destruct (unsigned_literal ds) as [n|] eqn:Hn; [|discriminate].
    destruct (time.unitMap u) as [k|] eqn:Hk; [|discriminate].
    destruct (pairs_value ps) as [t'|]; [|discriminate].
    injection H as <-. specialize (IH t' eq_refl).
    apply unsigned_literal_nonneg in Hn.
    apply unitMap_unit in Hk as (_ & _ & Hk & _). nia.
Qed.

Lemma ParseDuration_loop_pairs orig ps : forall fuel d t,
  (String.length (write_pairs ps) < fuel)%nat ->
  pairs_value ps = Some t -> 0 <= d -> d + t <= 2 ^ 63 ->
  time.ParseDuration_loop fuel orig (write_pairs ps) d = Some (inr (d + t)).
Proof.
  induction ps as [|[ds u] ps IH]; intros fuel d t Hfuel Ht Hd Hsum.
  - simpl in *. injection Ht as <-. destruct fuel; rewrite Z.add_0_r; reflexivity.
  - pose proof (write_pairs_digit_next ps) as Hnext.
    simpl in Ht.
    destruct (unsigned_literal ds) as [n|] eqn:Hn; [|discriminate].
    destruct (time.unitMap u) as [k|] eqn:Hk; [|discriminate].
    destruct (pairs_value ps) as [t'|] eqn:Ht'; [|discriminate].
    injection Ht as <-. specialize (Hnext t' eq_refl).
    pose proof (pairs_value_nonneg ps t' Ht') as Ht0.
    pose proof (unsigned_literal_nonneg ds n Hn) as Hn0.
    destruct (unitMap_unit u k Hk) as (_ & _ & Hk1 & _).
    assert (Hnk : 0 <= n * k) by nia.
    pose proof (ParseDuration_pair_value orig ds u (write_pairs ps) d n k
                  Hn Hk Hnext Hd ltac:(lia)) as Hpair.
    cbn [write_pairs] in *.
    rewrite !append_length in Hfuel.
    destruct (unsigned_literal_digit ds n Hn) as (c & ds' & -> & _ & _).
    destruct fuel as [|fuel]; [lia|].
    change (String c ds' +:+ u +:+ write_pairs ps)
      with (String c (ds' +:+ u +:+ write_pairs ps)) in *.
    cbn [time.ParseDuration_loop]. rewrite Hpair.
    rewrite (IH fuel (d + n * k) t'); [f_equal; f_equal; lia| |reflexivity|lia|lia].
    simpl String.length in Hfuel. lia.
Qed.

(** A duration written as one or more pairs of a decimal magnitude and a
    unit is read as the sum of the products, with or without a sign, when
    that sum fits. *)
Lemma ParseDuration_pairs ps t :
  ps <> [] -> pairs_value ps = Some t ->
  (t <= 2 ^ 63 - 1 ->
   time.ParseDuration (write_pairs ps) = (t, None)
   /\ time.ParseDuration ("+" +:+ write_pairs ps) = (t, None))
  /\ (t <= 2 ^ 63 ->
      time.ParseDuration ("-" +:+ write_pairs ps) = (- t, None)).
Proof.
  intros Hne Ht.
  pose proof (pairs_value_nonneg ps t Ht) as Ht0.
  assert (Hloop : forall orig, t <= 2 ^ 63 ->
            time.ParseDuration_loop (S (String.length (write_pairs ps))) orig
              (write_pairs ps) 0 = Some (inr t)).
  { intros orig Hmax.
    rewrite (ParseDuration_loop_pairs orig ps _ 0 t); [reflexivity|lia|exact Ht|lia|lia]. }
  destruct ps as [|[ds u] ps]; [done|]. clear Hne.
  simpl in Ht.
  destruct (unsigned_literal ds) as [n|] eqn:Hn; [|discriminate].
  destruct (time.unitMap u) as [k|] eqn:Hk; [|discriminate].
  destruct (unsigned_literal_digit ds n Hn) as (c & ds' & -> & Hc & _).
  destruct (unitMap_unit u k Hk) as (Hu & _).
  destruct u as [|q u']; [done|].
  remember (write_pairs ((String c ds', String q u') :: ps)) as s eqn:Hs.
  assert (Hshape : exists r, s = String c r /\ r <> EmptyString).
  { subst s. cbn [write_pairs].
    exists (ds' +:+ String q u' +:+ write_pairs ps). split; [reflexivity|].
    destruct ds'; discriminate. }
  destruct Hshape as (r & Es & Hr).
  assert (Hsign : Ascii.eqb c "-" || Ascii.eqb c "+" = false).
  { unfold time.is_digit in Hc. apply andb_prop in Hc as [H1 H2].
    apply Z.leb_le in H1. apply Z.leb_le in H2.
    destruct (Ascii.eqb_spec c "-") as [->|_]; [exfalso; apply H1; reflexivity|].
    destruct (Ascii.eqb_spec c "+") as [->|_]; [exfalso; apply H1; reflexivity|].
    reflexivity. }
  assert (Hzero : String.eqb s "0" = false).
  { rewrite Es. destruct r; [done|]. simpl.
    destruct (Ascii.eqb c "0"); reflexivity. }
  assert (Hempty : String.eqb s "" = false) by (rewrite Es; reflexivity).
  change (2 ^ 63) with 9223372036854775808 in *.
  split; [intros Hmax; split|intros Hmax].
  - unfold time.ParseDuration. rewrite Es, Hsign, <- Es, Hzero, Hempty.
    rewrite Hloop by lia.
    change (2 ^ 63) with 9223372036854775808.
    destruct (Z.ltb_spec (9223372036854775808 - 1) t); [lia|].
    rewrite to_int64_small by lia. reflexivity.
  - unfold time.ParseDuration. change ("+" +:+ s) with (String "+" s).
    cbv iota beta. change (Ascii.eqb "+" "-") with false.
    change (Ascii.eqb "+" "+") with true. cbn [orb].
    rewrite Hzero, Hempty, Hloop by lia.
    change (2 ^ 63) with 9223372036854775808.
    destruct (Z.ltb_spec (9223372036854775808 - 1) t); [lia|].
    rewrite to_int64_small by lia. reflexivity.
  - unfold time.ParseDuration. change ("-" +:+ s) with (String "-" s).
    cbv iota beta. change (Ascii.eqb "-" "-") with true. cbn [orb].
    rewrite Hzero, Hempty, Hloop by lia. f_equal.
    destruct (Z.eq_dec t 9223372036854775808) as [->|Hneq]; [reflexivity|].
    rewrite (to_int64_small t) by lia. apply to_int64_small. lia.
Qed.

Example ParseDuration_1h30m :
  write_pairs [("1", "h"); ("30", "m")]%string = "1h30m"%string
  /\ pairs_value [("1", "h"); ("30", "m")]%string = Some (90 * time.Minute).
Proof. split; reflexivity. Qed.

(** ** Running the accessors *)

Lemma bind_run {W A B : Type} (m : M W A) (f : A -> M W B) p :
  (m ≫= f) p = match m p with Returned (a, p') => f a p' | Panicked v => Panicked v end.
Proof. reflexivity. Qed.

Lemma String_run {W : Type} (p : process W) key def :
  env.String key def p = run (String_plan key def (getenv p key)) p.
Proof.
  unfold env.String, os.Getenv, getenv, raw_value, String_plan, run.
  rewrite bind_run. simpl.
  destruct (String.eqb key ""); [reflexivity|].
  destruct (negb _); reflexivity.
Qed.

Lemma String_run_empty {W : Type} (p : process W) key :
  env.String key "" p = Returned (getenv p key, p).
Proof.
  rewrite String_run. unfold run, String_plan. simpl.
  destruct (String.eqb_spec (getenv p key) "") as [->|]; reflexivity.
Qed.

Lemma parse_run {W A : Type} (parse : string -> result A) key def (p : process W) :
  (s ← env.String key "";
   if negb (String.eqb s "") then
     match parse s with
     | (d, None) => mret d
     | (_, Some err) => env.Log key err;; mret def
     end
   else mret def) p
  = run (parse_plan parse key def (getenv p key)) p.
Proof.
  rewrite bind_run, String_run_empty. unfold parse_plan, run.
  destruct (negb _); [|reflexivity].
  destruct (parse _) as [d [e|]]; reflexivity.
Qed.

Lemma Int_run {W : Type} L (p : process W) key def :
  env.Int L key def p
  = run (parse_plan (strconv.Atoi (GOARCH L)) key def (getenv p key)) p.
Proof. apply (parse_run (strconv.Atoi (GOARCH L))). Qed.

Lemma Float64_run {W : Type} L (p : process W) key def :
  env.Float64 L key def p
  = run (parse_plan (fun s => strconv_ParseFloat L s 64) key def (getenv p key)) p.
Proof. apply (parse_run (fun s => strconv_ParseFloat L s 64)). Qed.

Lemma Duration_run {W : Type} (p : process W) key def :
  env.Duration key def p
  = run (parse_plan time.ParseDuration key def (getenv p key)) p.
Proof. apply (parse_run time.ParseDuration). Qed.

Lemma Bool_go_run {W : Type} (p : process W) key def :
  env_go.Bool key def p
  = run (parse_plan strconv.ParseBool key def (getenv p key)) p.
Proof. apply (parse_run strconv.ParseBool). Qed.

Lemma Bool_run {W : Type} L (p : process W) key def :
  env.Bool L key def p = run (Bool_plan L key def (getenv p key)) p.
Proof.
  unfold env.Bool. rewrite !bind_run, String_run_empty. unfold Bool_plan, run.
  cbn [mret M_ret].
  destruct (existsb _ _); [reflexivity|].
  destruct (existsb _ _); [reflexivity|].
  rewrite bind_run.
  destruct (negb _); reflexivity.
Qed.

Lemma parse_plan_length {A : Type} (parse : string -> result A) key def s :
  (length (snd (parse_plan parse key def s)) <= 1)%nat.
Proof.
  unfold parse_plan. destruct (negb _); [|simpl; lia].
  destruct (parse s) as [d [e|]]; simpl; lia.
Qed.

Lemma Bool_plan_length L key def s :
  (length (snd (Bool_plan L key def s)) <= 1)%nat.
Proof.
  unfold Bool_plan.
  repeat match goal with |- context [if ?b then _ else _] => destruct b end;
    simpl; lia.
Qed.

(** A plan leaves the environment and the installed hook alone, and adds
    its calls to the history. *)
Lemma perform_frame {W A : Type} (cs : list (string * error)) (v : A) :
  forall (p : process W) v' p',
    perform cs v p = Returned (v', p') ->
    v' = v /\ environ p' = environ p /\ Log_var p' = Log_var p
    /\ calls p' = calls p ++ cs.
Proof.
  induction cs as [|[k e] cs IH]; intros p v' p' H; simpl in H.
  - injection H as <- <-. rewrite app_nil_r. done.
  - rewrite bind_run in H. unfold env.Log in H.
    destruct (Log_var p k e (world p)) as [w|x]; [|discriminate].
    apply IH in H as (-> & He & Hl & Hc). simpl in *.
    rewrite Hc, <- app_assoc. done.
Qed.


(** An accessor that runs a plan read off the raw value carries no state. *)
Lemma plan_stateless {W A : Type} (m : M W A) key (f : string -> plan A) :
  (forall s, (length (snd (f s)) <= 1)%nat) ->
  (forall p, m p = run (f (getenv p key)) p) ->
  stateless m key.
Proof.
  intros Hlen Hrun. split.
  - intros p1 p2 Hraw.
    exists (fst (f (getenv p1 key))), (snd (f (getenv p1 key))).
    split; [apply Hlen|]. split; [apply Hrun|].
    rewrite Hrun. unfold getenv. rewrite Hraw. reflexivity.
  - intros p v p' H. rewrite Hrun in H.
    apply perform_frame in H. tauto.
Qed.

Lemma stateless_idempotent {W A : Type} (m : M W A) key :
  stateless m key -> idempotent m.
Proof.
  intros [Hdet Hframe] p v1 p1 v2 p2 H1 H2.
  destruct (Hframe _ _ _ H1) as [He _].
  destruct (Hdet p p1) as (v & cs & Hlen & E1 & E2).
  { unfold raw_value. rewrite He. reflexivity. }
  rewrite E1 in H1. rewrite E2 in H2.
  apply perform_frame in H1 as (-> & _ & _ & Hc1).
  apply perform_frame in H2 as (-> & _ & _ & Hc2).
  split; [reflexivity|]. exists cs. done.
Qed.


Lemma getenv_absent {W : Type} (p : process W) key :
  absent_or_empty p key -> getenv p key = EmptyString.
Proof. unfold getenv. intros [-> | ->]; reflexivity. Qed.

Lemma getenv_set {W : Type} (p : process W) key raw :
  raw_value p key = Some raw -> getenv p key = raw.
Proof. unfold getenv. intros ->. reflexivity. Qed.

Lemma parse_plan_ok {A : Type} (parse : string -> result A) key def s d :
  s <> EmptyString -> parse s = (d, None) -> parse_plan parse key def s = (d, []).
Proof.
  intros Hs Hp. unfold parse_plan. rewrite Hp.
  destruct (String.eqb_spec s ""); [contradiction|reflexivity].
Qed.

Lemma parse_plan_err {A : Type} (parse : string -> result A) key def s v err :
  s <> EmptyString -> parse s = (v, Some err) ->
  parse_plan parse key def s = (def, [(key, err)]).
Proof.
  intros Hs Hp. unfold parse_plan. rewrite Hp.
  destruct (String.eqb_spec s ""); [contradiction|reflexivity].
Qed.


(** C1. For every accessor, key and default: when the variable is unset or
    set to the empty string, the accessor returns the default and does not
    invoke the hook; the two cases are not told apart. *)
Theorem absent_or_empty_default (L : golib) {W : Type} (p : process W) (key : string) :
  absent_or_empty p key ->
  (forall def, returns_silently (env.String key def) p def) /\
  (forall def, returns_silently (env.Bool L key def) p def) /\
  (forall def, returns_silently (env_go.Bool key def) p def) /\
  (forall def, returns_silently (env.Int L key def) p def) /\
  (forall def, returns_silently (env.Float64 L key def) p def) /\
  (forall def, returns_silently (env.Duration key def) p def).
Proof.
  intros H. apply getenv_absent in H. unfold returns_silently.
  repeat split; intros def.
  - rewrite String_run, H. reflexivity.
  - rewrite Bool_run, H. reflexivity.
  - rewrite Bool_go_run, H. reflexivity.
  - rewrite Int_run, H. reflexivity.
  - rewrite Float64_run, H. reflexivity.
  - rewrite Duration_run, H. reflexivity.
Qed.

(** C2. [String] returns the value bound to the key, as it is, when that
    value is not empty, and the default otherwise. *)
Theorem String_value_or_default {W : Type} (p : process W) (key def : string) :
  (forall raw, raw_value p key = Some raw -> raw <> EmptyString ->
               returns_silently (env.String key def) p raw) /\
  (absent_or_empty p key -> returns_silently (env.String key def) p def).
Proof.
  unfold returns_silently. split.
  - intros raw Hraw Hne. rewrite String_run, (getenv_set _ _ _ Hraw).
    unfold String_plan, run. simpl.
    destruct (String.eqb_spec raw ""); [contradiction|reflexivity].
  - intros H. rewrite String_run, (getenv_absent _ _ H). reflexivity.
Qed.

(** C3. When the raw value matches one of the six tokens without regard to
    case, [Bool] returns the boolean of that token and does not invoke the
    hook. *)
Theorem Bool_token (L : golib) {W : Type} (p : process W)
        (key : string) (def : bool) (raw tok : string) (b : bool) :
  raw_value p key = Some raw ->
  (tok, b) ∈ bool_tokens ->
  equal_fold raw tok = true ->
  returns_silently (env.Bool L key def) p b.
Proof.
  intros Hraw Hin Hfold. unfold returns_silently.
  rewrite Bool_run, (getenv_set _ _ _ Hraw). unfold Bool_plan.
  rewrite (ToLower_token L raw tok Hfold (bool_tokens_lower tok b Hin)).
  unfold bool_tokens in Hin.
  repeat (apply elem_of_cons in Hin as [Hin|Hin];
          [injection Hin as -> ->; reflexivity|]).
  apply elem_of_nil in Hin. destruct Hin.
Qed.

(** C4, as amended. When the raw value is not empty and matches none of the
    six tokens, [Bool] invokes the hook exactly once, with the key and an
    [unknown bool value] error that names the value in lower case, and
    returns the default. *)
Theorem Bool_unknown_value (L : golib) {W : Type} (p : process W)
        (key : string) (def : bool) (raw : string) :
  unicode_lower_no_token L ->
  raw_value p key = Some raw ->
  raw <> EmptyString ->
  matches_no_token raw ->
  reports_once (env.Bool L key def) p key
    (errorString ("unknown bool value: '" +:+ strings.ToLower L raw +:+ "'")) def.
Proof.
  intros HL Hraw Hne Hno. unfold reports_once.
  destruct (ToLower_no_token L raw HL Hne Hno) as [Hs Htok].
  rewrite Bool_run, (getenv_set _ _ _ Hraw). unfold Bool_plan.
  destruct (existsb _ ["true"; "t"; "1"]%string) eqn:Ht.
  { apply switch_true in Ht. exfalso. eapply Htok; eauto. }
  destruct (existsb _ ["false"; "f"; "0"]%string) eqn:Hf.
  { apply switch_false in Hf. exfalso. eapply Htok; eauto. }
  destruct (String.eqb_spec (strings.ToLower L raw) ""); [contradiction|].
  reflexivity.
Qed.

Lemma literal_result_in_range fn a s z :
  minInt a <= z <= maxInt a -> literal_result fn a s z = (z, None).
Proof. intros H. unfold literal_result. zcases. reflexivity. Qed.

Lemma literal_result_out_of_range fn a s z :
  z < minInt a \/ maxInt a < z ->
  exists v, literal_result fn a s z = (v, Some (strconv.rangeError fn s)).
Proof. intros H. unfold literal_result. zcases; eauto. Qed.

Lemma int_literal_nonempty s z : int_literal s = Some z -> s <> EmptyString.
Proof. destruct s; [discriminate|done]. Qed.

(** C5. A non-empty raw value that is a base-10 signed integer literal
    within the range of [int] makes [Int] return that integer without
    invoking the hook; one that is no such literal makes it invoke the hook
    exactly once, with the key and the error of [strconv.Atoi], and return
    the default. *)
Theorem Int_parses (L : golib) {W : Type} (p : process W)
        (key : string) (def : Z) (raw : string) :
  raw_value p key = Some raw ->
  raw <> EmptyString ->
  (forall z, int_literal raw = Some z ->
             minInt (GOARCH L) <= z <= maxInt (GOARCH L) ->
             returns_silently (env.Int L key def) p z) /\
  (int_literal raw = None ->
   exists kind, (kind = strconv.ErrSyntax \/ kind = strconv.ErrRange) /\
     reports_once (env.Int L key def) p key (NumError "Atoi" raw kind) def) /\
  (forall v err, strconv.Atoi (GOARCH L) raw = (v, Some err) ->
                 reports_once (env.Int L key def) p key err def) /\
  int_literal "42" = Some 42 /\ int_literal "-7" = Some (-7) /\
  int_literal "3.5" = None.
Proof.
  intros Hraw Hne. unfold returns_silently, reports_once.
  pose proof (Atoi_spec (GOARCH L) raw) as HA.
  repeat split.
  - intros z Hz Hr. rewrite Hz in HA. rewrite literal_result_in_range in HA by exact Hr.
    rewrite Int_run, (getenv_set _ _ _ Hraw), (parse_plan_ok _ _ _ _ _ Hne HA).
    reflexivity.
  - intros Hz. rewrite Hz in HA. destruct HA as [HA|[v HA]].
    + exists strconv.ErrSyntax. split; [left; reflexivity|].
      rewrite Int_run, (getenv_set _ _ _ Hraw), (parse_plan_err _ _ _ _ _ _ Hne HA).
      reflexivity.
    + exists strconv.ErrRange. split; [right; reflexivity|].
      rewrite Int_run, (getenv_set _ _ _ Hraw), (parse_plan_err _ _ _ _ _ _ Hne HA).
      reflexivity.
  - intros v err He.
    rewrite Int_run, (getenv_set _ _ _ Hraw), (parse_plan_err _ _ _ _ _ _ Hne He).
    reflexivity.
Qed.

(** C10. A raw value that is a well-formed base-10 integer literal outside
    the range of [int] is malformed for [Int]: the hook is invoked exactly
    once, with the key and a range error, and the default is returned. *)
Theorem Int_out_of_range (L : golib) {W : Type} (p : process W)
        (key : string) (def : Z) (raw : string) (z : Z) :
  raw_value p key = Some raw ->
  int_literal raw = Some z ->
  z < minInt (GOARCH L) \/ maxInt (GOARCH L) < z ->
  reports_once (env.Int L key def) p key (NumError "Atoi" raw strconv.ErrRange) def.
Proof.
  intros Hraw Hz Hr. unfold reports_once.
  pose proof (Atoi_spec (GOARCH L) raw) as HA. rewrite Hz in HA.
  destruct (literal_result_out_of_range "Atoi" (GOARCH L) raw z Hr) as [v Hv].
  rewrite Hv in HA.
  rewrite Int_run, (getenv_set _ _ _ Hraw),
    (parse_plan_err _ _ _ _ _ _ (int_literal_nonempty _ _ Hz) HA).
  reflexivity.
Qed.

(** C6. A non-empty raw value that is a duration literal makes [Duration]
    return the duration it denotes without invoking the hook: whatever
    [time.ParseDuration] accepts is returned, and a literal written as
    pairs of a decimal magnitude and a unit, with or without a sign, is
    read as the sum of the products when that sum fits.  A value that
    [time.ParseDuration] rejects makes [Duration] invoke the hook exactly
    once, with the key and the parse error, and return the default. *)
Theorem Duration_parses {W : Type} (p : process W)
        (key : string) (def : time.Duration) (raw : string) :
  raw_value p key = Some raw ->
  raw <> EmptyString ->
  (forall d, time.ParseDuration raw = (d, None) ->
             returns_silently (env.Duration key def) p d) /\
  (forall v err, time.ParseDuration raw = (v, Some err) ->
                 reports_once (env.Duration key def) p key err def) /\
  (forall ps t, ps <> [] -> pairs_value ps = Some t -> t <= 2 ^ 63 - 1 ->
                raw = write_pairs ps \/ raw = "+" +:+ write_pairs ps ->
                returns_silently (env.Duration key def) p t) /\
  (forall ps t, ps <> [] -> pairs_value ps = Some t -> t <= 2 ^ 63 ->
                raw = "-" +:+ write_pairs ps ->
                returns_silently (env.Duration key def) p (- t)) /\
  time.ParseDuration "1h30m" = (90 * time.Minute, None) /\
  time.ParseDuration "500ms" = (500 * time.Millisecond, None) /\
  time.ParseDuration "notaduration"
  = (0, Some (time.invalid "notaduration")).
Proof.
  intros Hraw Hne. unfold returns_silently, reports_once.
  assert (Hok : forall d, time.ParseDuration raw = (d, None) ->
                          env.Duration key def p = Returned (d, p)).
  { intros d Hd.
    rewrite Duration_run, (getenv_set _ _ _ Hraw), (parse_plan_ok _ _ _ _ _ Hne Hd).
    reflexivity. }
  split_and!.
  - exact Hok.
  - intros v err He.
    rewrite Duration_run, (getenv_set _ _ _ Hraw), (parse_plan_err _ _ _ _ _ _ Hne He).
    reflexivity.
  - intros ps t Hps Ht Hmax Hw. apply Hok.
    destruct (ParseDuration_pairs ps t Hps Ht) as [Hpos _].
    destruct (Hpos Hmax) as [H1 H2]. destruct Hw as [-> | ->]; assumption.
  - intros ps t Hps Ht Hmax ->. apply Hok.
    destruct (ParseDuration_pairs ps t Hps Ht) as [_ Hneg]. exact (Hneg Hmax).
  - vm_compute. reflexivity.
  - vm_compute. reflexivity.
  - vm_compute. reflexivity.
Qed.




(** C8. Every accessor is stateless: its result and the number of hook
    invocations, none or one, are fixed by the raw value of the key, the
    arguments and the installed hook, and two calls in succession give the
    same result with the same number of invocations. *)
Theorem accessors_stateless (L : golib) (W : Type) (key : string) :
  (forall def, stateless (W:=W) (env.String key def) key
               /\ idempotent (W:=W) (env.String key def)) /\
  (forall def, stateless (W:=W) (env.Bool L key def) key
               /\ idempotent (W:=W) (env.Bool L key def)) /\
  (forall def, stateless (W:=W) (env_go.Bool key def) key
               /\ idempotent (W:=W) (env_go.Bool key def)) /\
  (forall def, stateless (W:=W) (env.Int L key def) key
               /\ idempotent (W:=W) (env.Int L key def)) /\
  (forall def, stateless (W:=W) (env.Float64 L key def) key
               /\ idempotent (W:=W) (env.Float64 L key def)) /\
  (forall def, stateless (W:=W) (env.Duration key def) key
               /\ idempotent (W:=W) (env.Duration key def)).
Proof.
  assert (Hboth : forall A (m : M W A), stateless m key ->
                                        stateless m key /\ idempotent m).
  { intros A m H. split; [exact H|]. eapply stateless_idempotent. exact H. }
  split_and!; intros def; apply Hboth.
  - apply (plan_stateless _ key (String_plan key def)).
    + intros s. simpl. lia.
    + intros p. apply String_run.
  - apply (plan_stateless _ key (Bool_plan L key def)).
    + apply Bool_plan_length.
    + intros p. apply Bool_run.
  - apply (plan_stateless _ key (parse_plan strconv.ParseBool key def)).
    + apply parse_plan_length.
    + intros p. apply Bool_go_run.
  - apply (plan_stateless _ key (parse_plan (strconv.Atoi (GOARCH L)) key def)).
    + apply parse_plan_length.
    + intros p. apply Int_run.
  - apply (plan_stateless _ key
             (parse_plan (fun s => strconv_ParseFloat L s 64) key def)).
    + apply parse_plan_length.
    + intros p. apply Float64_run.
  - apply (plan_stateless _ key (parse_plan time.ParseDuration key def)).
    + apply parse_plan_length.
    + intros p. apply Duration_run.
Qed.

Lemma matches_no_tokenb_sound raw :
  matches_no_tokenb raw = true -> matches_no_token raw.
Proof.
  unfold matches_no_tokenb. rewrite forallb_forall. intros H tok b Hin.
  apply list_elem_of_In in Hin. apply H in Hin. simpl in Hin.
  apply negb_true_iff in Hin. exact Hin.
Qed.

Lemma example_lib_lower : unicode_lower_no_token example_lib.
Proof.
  intros s Hs. simpl. split.
  - intros ->. discriminate.
  - intros tok b Hin ->.
    unfold bool_tokens in Hin.
    repeat (apply elem_of_cons in Hin as [Hin|Hin];
            [injection Hin as -> ->; discriminate|]).
    apply elem_of_nil in Hin. destruct Hin.
Qed.

Lemma absent_or_empty_default_witness :
  returns_silently (env.Int example_lib "EMPTY" 8080) example_process 8080
  /\ returns_silently (env.Bool example_lib "UNSET" true) example_process true.
Proof.
  split.
  - apply (absent_or_empty_default example_lib example_process "EMPTY").
    right. reflexivity.
  - apply (absent_or_empty_default example_lib example_process "UNSET").
    left. reflexivity.
Defined.

Lemma String_value_or_default_witness :
  returns_silently (env.String "TIMEOUT" "5s") example_process "1h30m"
  /\ returns_silently (env.String "EMPTY" "5s") example_process "5s".
Proof.
  split.
  - apply (proj1 (String_value_or_default example_process "TIMEOUT" "5s"));
      [reflexivity | discriminate].
  - apply (proj2 (String_value_or_default example_process "EMPTY" "5s")).
    right. reflexivity.
Defined.

Lemma Bool_token_witness :
  returns_silently (env.Bool example_lib "DEBUG" false) example_process true.
Proof.
  apply (Bool_token example_lib example_process "DEBUG" false "tRuE" "true" true);
    [reflexivity | repeat constructor | reflexivity].
Defined.

Lemma Bool_unknown_value_witness :
  reports_once (env.Bool example_lib "VERBOSE" false) example_process
    "VERBOSE" (errorString "unknown bool value: 'yes'") false.
Proof.
  apply (Bool_unknown_value example_lib example_process "VERBOSE" false "YES");
    [apply example_lib_lower | reflexivity | discriminate
    | apply matches_no_tokenb_sound; reflexivity].
Defined.

(** C4, as stated, fails: the value [YES] matches no token, and the error
    the hook receives names [yes], not [YES]. *)
Lemma Bool_error_names_lowered_value :
  raw_value example_process "VERBOSE" = Some "YES"%string
  /\ matches_no_token "YES"
  /\ recorded_calls (env.Bool example_lib "VERBOSE" false example_process)
     = [("VERBOSE"%string, errorString "unknown bool value: 'yes'")]
  /\ ~ reports_once (env.Bool example_lib "VERBOSE" false) example_process
        "VERBOSE" (errorString "unknown bool value: 'YES'") false.
Proof.
  split; [reflexivity|]. split; [apply matches_no_tokenb_sound; reflexivity|].
  split; [reflexivity|].
  unfold reports_once. intros H.
  apply (f_equal recorded_calls) in H. vm_compute in H. discriminate H.
Qed.

Lemma Int_parses_witness :
  returns_silently (env.Int example_lib "PORT" 0) example_process 42
  /\ returns_silently (env.Int example_lib "OFFSET" 0) example_process (-7)
  /\ reports_once (env.Int example_lib "RATIO" 0) example_process
       "RATIO" (NumError "Atoi" "3.5" strconv.ErrSyntax) 0.
Proof.
  split; [|split].
  - apply (proj1 (Int_parses example_lib example_process "PORT" 0 "42"
                    eq_refl ltac:(discriminate)) 42);
      [reflexivity | vm_compute; split; discriminate].
  - apply (proj1 (Int_parses example_lib example_process "OFFSET" 0 "-7"
                    eq_refl ltac:(discriminate)) (-7));
      [reflexivity | vm_compute; split; discriminate].
  - apply (proj1 (proj2 (proj2 (Int_parses example_lib example_process "RATIO" 0
                                  "3.5" eq_refl ltac:(discriminate)))) 0).
    reflexivity.
Defined.

Lemma Int_out_of_range_witness :
  reports_once (env.Int example_lib "HUGE" 0) example_process
    "HUGE" (NumError "Atoi" "9223372036854775808" strconv.ErrRange) 0.
Proof.
  apply (Int_out_of_range example_lib example_process "HUGE" 0
           "9223372036854775808" 9223372036854775808);
    [reflexivity | reflexivity | right; reflexivity].
Defined.

Lemma Duration_parses_witness :
  returns_silently (env.Duration "TIMEOUT" 0) example_process (90 * time.Minute)
  /\ reports_once (env.Duration "PAUSE" 0) example_process
       "PAUSE" (errorString ("time: invalid duration "
                             +:+ time.quote "notaduration")) 0.
Proof.
  split.
  - apply (proj1 (proj2 (proj2 (Duration_parses example_process "TIMEOUT" 0 "1h30m"
                                  eq_refl ltac:(discriminate))))
                 [("1", "h"); ("30", "m")]%string (90 * time.Minute));
      [discriminate | reflexivity | vm_compute; discriminate | left; reflexivity].
  - apply (proj1 (proj2 (Duration_parses example_process "PAUSE" 0 "notaduration"
                           eq_refl ltac:(discriminate))) 0).
    reflexivity.
Defined.



(** A literal that overflows the duration is a parse failure. *)
Lemma Duration_overflow_fails :
  time.ParseDuration "10000000000h"
  = (0, Some (time.invalid "10000000000h")).
Proof. vm_compute. reflexivity. Qed.

Lemma Bool_variants_agree (L : golib) (s : string) (b : bool) :
  strconv.ParseBool s = (b, None) ->
  forall (W : Type) (p : process W) key def,
    raw_value p key = Some s ->
    env_go.Bool key def p = Returned (b, p)
    /\ env.Bool L key def p = Returned (b, p).
Proof.
  intros Hs W p key def Hraw.
  rewrite Bool_go_run, Bool_run, (getenv_set _ _ _ Hraw).
  unfold strconv.ParseBool in Hs.
  destruct (existsb _ ["1"; "t"; "T"; "true"; "TRUE"; "True"]%string) eqn:Ht.
  - injection Hs as <-. simpl in Ht.
    repeat (apply orb_prop in Ht as [Ht|Ht];
            [apply String.eqb_eq in Ht; subst s; split; reflexivity|]).
    discriminate.
  - destruct (existsb _ ["0"; "f"; "F"; "false"; "FALSE"; "False"]%string) eqn:Hf;
      [|discriminate].
    injection Hs as <-. simpl in Hf.
    repeat (apply orb_prop in Hf as [Hf|Hf];
            [apply String.eqb_eq in Hf; subst s; split; reflexivity|]).
    discriminate.
Qed.

Lemma Bool_variants_agree_on (L : golib) (s : string) (b : bool) :
  strconv.ParseBool s = (b, None) -> ~ variants_disagree_on L s.
Proof.
  intros Hs (W & p & key & def & Hraw & Hne).
  destruct (Bool_variants_agree L s b Hs W p key def Hraw) as [E1 E2].
  apply Hne. rewrite E1, E2. reflexivity.
Qed.

(** C9, as stated, fails: both versions of [Bool] accept [1] and [0], as
    true and as false. *)
Lemma Bool_variants_accept_1_and_0 :
  env_go.Bool "ONE" false example_process = Returned (true, example_process)
  /\ env.Bool example_lib "ONE" false example_process
     = Returned (true, example_process)
  /\ env_go.Bool "ZERO" true example_process = Returned (false, example_process)
  /\ env.Bool example_lib "ZERO" true example_process
     = Returned (false, example_process)
  /\ ~ (variants_disagree_on example_lib "1"
        /\ variants_disagree_on example_lib "0").
Proof.
  split_and!; try reflexivity.
  intros [H _]. revert H. apply (Bool_variants_agree_on _ _ true). reflexivity.
Qed.

(** C9, as amended. The two versions of [Bool] are not the same function:
    they differ on which raw values are tokens, [tRuE] being one for the
    switch and an error for [strconv.ParseBool]; they agree on [1] and [0],
    and on every spelling [strconv.ParseBool] accepts. *)
Theorem Bool_variants_differ (L : golib) :
  variants_disagree_on L "tRuE"
  /\ (forall (W : Type) (p : process W) key def,
        raw_value p key = Some "tRuE"%string ->
        returns_silently (env.Bool L key def) p true
        /\ reports_once (env_go.Bool key def) p key
             (strconv.syntaxError "ParseBool" "tRuE") def)
  /\ ~ variants_disagree_on L "1"
  /\ ~ variants_disagree_on L "0"
  /\ (forall s b, strconv.ParseBool s = (b, None) -> ~ variants_disagree_on L s).
Proof.
  split_and!.
  - exists log.output, example_process, "DEBUG"%string, false.
    split; [reflexivity|].
    rewrite Bool_go_run, Bool_run. intros H.
    apply (f_equal returned_value) in H. vm_compute in H. discriminate H.
  - intros W p key def Hraw. unfold returns_silently, reports_once.
    rewrite Bool_go_run, Bool_run, (getenv_set _ _ _ Hraw). split; reflexivity.
  - apply (Bool_variants_agree_on _ _ true). reflexivity.
  - apply (Bool_variants_agree_on _ _ false). reflexivity.
  - intros s b. apply Bool_variants_agree_on.
Qed.

(** ** Further properties of the accessors *)

Lemma perform_silent {W A : Type} (cs : list (string * error)) (v v' : A)
      (p : process W) :
  perform cs v p = Returned (v', p) -> cs = [] /\ v' = v.
Proof.
  intros H. apply perform_frame in H as (-> & _ & _ & Hc).
  split; [|reflexivity].
  apply (f_equal (@length _)) in Hc. rewrite length_app in Hc.
  destruct cs; [reflexivity|simpl in Hc; lia].
Qed.

Lemma run_silent {W A : Type} (pl : plan A) (v : A) (p : process W) :
  run pl p = Returned (v, p) -> pl = (v, []).
Proof.
  destruct pl as [v0 cs]. unfold run. simpl. intros H.
  apply perform_silent in H as [-> ->]. reflexivity.
Qed.

Lemma ParseBool_spelling s b :
  (s, b) ∈ ParseBool_spellings <-> strconv.ParseBool s = (b, None).
Proof.
  unfold ParseBool_spellings, strconv.ParseBool. split.
  - intros H.
    repeat (apply elem_of_cons in H as [H|H]; [injection H as -> ->; reflexivity|]).
    apply elem_of_nil in H. destruct H.
  - destruct (existsb _ ["1"; "t"; "T"; "true"; "TRUE"; "True"]%string) eqn:Ht.
    + intros H. injection H as <-. simpl in Ht.
      repeat (apply orb_prop in Ht as [Ht|Ht];
              [apply String.eqb_eq in Ht; subst s; set_solver|]).
      discriminate.
    + destruct (existsb _ ["0"; "f"; "F"; "false"; "FALSE"; "False"]%string) eqn:Hf;
        [|discriminate].
      intros H. injection H as <-. simpl in Hf.
      repeat (apply orb_prop in Hf as [Hf|Hf];
              [apply String.eqb_eq in Hf; subst s; set_solver|]).
      discriminate.
Qed.

Lemma ParseBool_error s :
  (forall b, (s, b) ∉ ParseBool_spellings) ->
  strconv.ParseBool s = (false, Some (strconv.syntaxError "ParseBool" s)).
Proof.
  intros H. unfold strconv.ParseBool.
  destruct (existsb _ ["1"; "t"; "T"; "true"; "TRUE"; "True"]%string) eqn:Ht.
  { exfalso. apply (H true). apply ParseBool_spelling.
    unfold strconv.ParseBool. rewrite Ht. reflexivity. }
  destruct (existsb _ ["0"; "f"; "F"; "false"; "FALSE"; "False"]%string) eqn:Hf.
  { exfalso. apply (H false). apply ParseBool_spelling.
    unfold strconv.ParseBool. rewrite Ht, Hf. reflexivity. }
  reflexivity.
Qed.

(** X2. The [Bool] of src/env.go takes the twelve spellings of
    [strconv.ParseBool] and nothing else: on one of them it returns its
    boolean without invoking the hook, and only then; on any other
    non-empty value it invokes the hook exactly once, with the key and the
    syntax error of [ParseBool] on that value, and returns the default. *)
Theorem Bool_go_spellings {W : Type} (p : process W)
        (key : string) (def : bool) (raw : string) :
  raw_value p key = Some raw ->
  raw <> EmptyString ->
  (forall b, (raw, b) ∈ ParseBool_spellings ->
             returns_silently (env_go.Bool key def) p b) /\
  (forall b, returns_silently (env_go.Bool key def) p b ->
             (raw, b) ∈ ParseBool_spellings) /\
  ((forall b, (raw, b) ∉ ParseBool_spellings) ->
   reports_once (env_go.Bool key def) p key
     (NumError "ParseBool" raw strconv.ErrSyntax) def).
Proof.
  intros Hraw Hne. unfold returns_silently, reports_once.
  rewrite Bool_go_run, (getenv_set _ _ _ Hraw). split_and!.
  - intros b Hb. apply ParseBool_spelling in Hb.
    rewrite (parse_plan_ok _ _ _ _ _ Hne Hb). reflexivity.
  - intros b Hb. apply run_silent in Hb. apply ParseBool_spelling.
    unfold parse_plan in Hb.
    destruct (String.eqb_spec raw ""); [contradiction|]. simpl in Hb.
    destruct (strconv.ParseBool raw) as [d [e|]]; [discriminate|].
    injection Hb as ->. reflexivity.
  - intros Hno.
    rewrite (parse_plan_err _ _ _ _ _ _ Hne (ParseBool_error raw Hno)).
    reflexivity.
Qed.

Lemma Bool_go_spellings_witness :
  returns_silently (env_go.Bool "ONE" false) example_process true
  /\ reports_once (env_go.Bool "DEBUG" false) example_process "DEBUG"
       (NumError "ParseBool" "tRuE" strconv.ErrSyntax) false.
Proof.
  split.
  - apply (proj1 (Bool_go_spellings example_process "ONE" false "1"
                    eq_refl ltac:(discriminate)) true).
    repeat constructor.
  - apply (proj2 (proj2 (Bool_go_spellings example_process "DEBUG" false "tRuE"
                           eq_refl ltac:(discriminate)))).
    intros b Hb. apply ParseBool_spelling in Hb. discriminate Hb.
Defined.

Lemma same_letter_lower_ascii c d :
  same_letter c d = true -> byte c < 128 ->
  byte d < 128 /\
  (if (65 <=? byte c) && (byte c <=? 90) then byte_of (byte c + 32) else c)
  = (if (65 <=? byte d) && (byte d <=? 90) then byte_of (byte d + 32) else d).
Proof.
  unfold same_letter. intros H Hc.
  pose proof (byte_range c) as Rc. pose proof (byte_range d) as Rd.
  apply orb_prop in H as [H|H]; [apply orb_prop in H as [H|H]|].
  - apply Ascii.eqb_eq in H. subst d. split; [lia|reflexivity].
  - apply andb_prop in H as [H H3]. apply andb_prop in H as [H1 H2].
    rewrite H1, H2. simpl. apply Z.eqb_eq in H3.
    apply Z.leb_le in H1. apply Z.leb_le in H2. split; [lia|].
    destruct (Z.leb_spec 65 (byte d)), (Z.leb_spec (byte d) 90);
      simpl; try lia; rewrite <- H3; apply byte_of_byte.
  - apply andb_prop in H as [H H3]. apply andb_prop in H as [H1 H2].
    apply Z.eqb_eq in H3. apply Z.leb_le in H1. apply Z.leb_le in H2.
    split; [lia|].
    destruct (Z.leb_spec 65 (byte c)), (Z.leb_spec (byte c) 90); simpl; try lia.
    destruct (Z.leb_spec 65 (byte d)), (Z.leb_spec (byte d) 90); simpl; try lia.
    rewrite H3. replace (byte c - 32 + 32) with (byte c) by lia.
    symmetry. apply byte_of_byte.
Qed.

Lemma equal_fold_lower_ascii s : forall t h h',
  equal_fold s t = true -> fst (strings.scan s h) = true ->
  fst (strings.scan t h') = true /\ strings.lower_ascii s = strings.lower_ascii t.
Proof.
  induction s as [|c s IH]; intros [|d t] h h' H Hs; simpl in *; try discriminate.
  - split; reflexivity.
  - apply andb_prop in H as [Hc H].
    destruct (Z.leb_spec 128 (byte c)) as [|Hlt]; [discriminate|].
    destruct (same_letter_lower_ascii c d Hc Hlt) as [Hd Heq].
    destruct (Z.leb_spec 128 (byte d)); [lia|].
    destruct (IH t _ (h' || (65 <=? byte d) && (byte d <=? 90)) H Hs) as [-> ->].
    rewrite Heq. split; reflexivity.
Qed.

(** Two ASCII strings that are equal without regard to case have the same
    lower case. *)
Lemma ToLower_equal_fold L s t :
  equal_fold s t = true -> fst (strings.scan s false) = true ->
  strings.ToLower L s = strings.ToLower L t.
Proof.
  intros H Hs.
  destruct (equal_fold_lower_ascii s t false false H Hs) as [Ht Hl].
  rewrite !ToLower_ascii by assumption. exact Hl.
Qed.

(** X3. The [Bool] of part_000 does not see the case of ASCII letters: two
    raw values without a byte outside ASCII that are equal up to case get
    the same result through the same call of the hook, error included. *)
Theorem Bool_case_insensitive (L : golib) {W : Type} (p1 p2 : process W)
        (key : string) (def : bool) (raw1 raw2 : string) :
  raw_value p1 key = Some raw1 ->
  raw_value p2 key = Some raw2 ->
  fst (strings.scan raw1 false) = true ->
  equal_fold raw1 raw2 = true ->
  exists v cs, (length cs <= 1)%nat
               /\ env.Bool L key def p1 = perform cs v p1
               /\ env.Bool L key def p2 = perform cs v p2.
Proof.
  intros H1 H2 Hascii Hfold.
  exists (fst (Bool_plan L key def raw1)), (snd (Bool_plan L key def raw1)).
  split; [apply Bool_plan_length|].
  rewrite !Bool_run, (getenv_set _ _ _ H1), (getenv_set _ _ _ H2).
  split; [reflexivity|].
  unfold Bool_plan. rewrite <- (ToLower_equal_fold L raw1 raw2 Hfold Hascii).
  reflexivity.
Qed.

Lemma Bool_case_insensitive_witness :
  exists v cs, (length cs <= 1)%nat
    /\ env.Bool example_lib "VERBOSE" false example_process
       = perform cs v example_process
    /\ env.Bool example_lib "VERBOSE" false
         (with_environ {["VERBOSE" := "Yes"]} example_process)
       = perform cs v (with_environ {["VERBOSE" := "Yes"]} example_process).
Proof.
  apply (Bool_case_insensitive example_lib example_process
           (with_environ {["VERBOSE" := "Yes"]} example_process)
           "VERBOSE" false "YES" "Yes"); reflexivity.
Defined.

Lemma Bool_plan_token L key def raw tok b :
  (tok, b) ∈ bool_tokens -> equal_fold raw tok = true ->
  Bool_plan L key def raw = (b, []).
Proof.
  intros Hin Hfold. unfold Bool_plan.
  rewrite (ToLower_token L raw tok Hfold (bool_tokens_lower tok b Hin)).
  unfold bool_tokens in Hin.
  repeat (apply elem_of_cons in Hin as [Hin|Hin];
          [injection Hin as -> ->; reflexivity|]).
  apply elem_of_nil in Hin. destruct Hin.
Qed.

Lemma matches_no_tokenb_complete raw :
  matches_no_tokenb raw = false ->
  exists tok b, (tok, b) ∈ bool_tokens /\ equal_fold raw tok = true.
Proof.
  unfold matches_no_tokenb, bool_tokens. simpl. intros H.
  repeat (apply andb_false_iff in H as [H|H];
          [apply negb_false_iff in H; eexists _, _; split; [|exact H]; repeat constructor|]).
  discriminate.
Qed.

(** X4. The [Bool] of part_000 returns without invoking the hook only on a
    token: when the raw value is not empty and the call returns a boolean
    without a hook call, the value matches, without regard to case, a token
    that stands for this boolean. *)
Theorem Bool_silent_only_token (L : golib) {W : Type} (p : process W)
        (key : string) (def : bool) (raw : string) (v : bool) :
  unicode_lower_no_token L ->
  raw_value p key = Some raw ->
  raw <> EmptyString ->
  returns_silently (env.Bool L key def) p v ->
  exists tok, (tok, v) ∈ bool_tokens /\ equal_fold raw tok = true.
Proof.
  intros HL Hraw Hne Hs. unfold returns_silently in Hs.
  rewrite Bool_run, (getenv_set _ _ _ Hraw) in Hs. apply run_silent in Hs.
  destruct (matches_no_tokenb raw) eqn:Hm.
  - apply matches_no_tokenb_sound in Hm.
    destruct (ToLower_no_token L raw HL Hne Hm) as [Hnz Htok].
    unfold Bool_plan in Hs.
    destruct (existsb _ ["true"; "t"; "1"]%string) eqn:Ht.
    { apply switch_true in Ht. exfalso. eapply Htok; eauto. }
    destruct (existsb _ ["false"; "f"; "0"]%string) eqn:Hf.
    { apply switch_false in Hf. exfalso. eapply Htok; eauto. }
    destruct (String.eqb_spec (strings.ToLower L raw) ""); [contradiction|].
    discriminate Hs.
  - destruct (matches_no_tokenb_complete raw Hm) as (tok & b & Hin & Hfold).
    rewrite (Bool_plan_token L key def raw tok b Hin Hfold) in Hs.
    injection Hs as ->. exists tok. split; assumption.
Qed.

Lemma Bool_silent_only_token_witness :
  exists tok, (tok, true) ∈ bool_tokens /\ equal_fold "tRuE" tok = true.
Proof.
  apply (Bool_silent_only_token example_lib example_process "DEBUG" false "tRuE" true);
    [apply example_lib_lower | reflexivity | discriminate | reflexivity].
Defined.

(** X5. [Int] returns without invoking the hook only the number written:
    when the raw value is not empty and the call returns [v] without a hook
    call, the value is a base-10 signed integer literal that denotes [v],
    and [v] is within the range of [int]; no wrapped, clamped or default
    value is returned in silence. *)
Theorem Int_silent_only_literal (L : golib) {W : Type} (p : process W)
        (key : string) (def : Z) (raw : string) (v : Z) :
  raw_value p key = Some raw ->
  raw <> EmptyString ->
  returns_silently (env.Int L key def) p v ->
  int_literal raw = Some v /\ minInt (GOARCH L) <= v <= maxInt (GOARCH L).
Proof.
  intros Hraw Hne Hs. unfold returns_silently in Hs.
  rewrite Int_run, (getenv_set _ _ _ Hraw) in Hs. apply run_silent in Hs.
  unfold parse_plan in Hs.
  destruct (String.eqb_spec raw ""); [contradiction|]. simpl in Hs.
  pose proof (Atoi_spec (GOARCH L) raw) as HA.
  destruct (int_literal raw) as [z|].
  - rewrite HA in Hs. unfold literal_result in Hs.
    destruct (Z.ltb_spec z (minInt (GOARCH L))); [discriminate|].
    destruct (Z.ltb_spec (maxInt (GOARCH L)) z); [discriminate|].
    injection Hs as ->. split; [reflexivity|lia].
  - destruct HA as [HA|[x HA]]; rewrite HA in Hs; discriminate.
Qed.

Lemma Int_silent_only_literal_witness :
  int_literal "-7" = Some (-7)
  /\ minInt (GOARCH example_lib) <= -7 <= maxInt (GOARCH example_lib).
Proof.
  apply (Int_silent_only_literal example_lib example_process "OFFSET" 0 "-7" (-7));
    [reflexivity | discriminate | reflexivity].
Defined.

Lemma parse_plan_keyed {A : Type} (parse : string -> result A) key def s :
  keyed key (parse_plan parse key def s).
Proof.
  unfold keyed, parse_plan. destruct (negb _); [|left; reflexivity].
  destruct (parse s) as [d [e|]]; simpl; eauto.
Qed.

Lemma Bool_plan_keyed L key def s : keyed key (Bool_plan L key def s).
Proof.
  unfold keyed, Bool_plan.
  repeat match goal with |- context [if ?b then _ else _] => destruct b end;
    simpl; eauto.
Qed.

Lemma String_plan_keyed key def s : keyed key (String_plan key def s).
Proof. left. reflexivity. Qed.

Lemma run_reported {W A : Type} key (pl : plan A) (p p' : process W) v :
  keyed key pl -> run pl p = Returned (v, p') -> reported_by key p p'.
Proof.
  destruct pl as [v0 cs]. unfold keyed, run. simpl.
  intros [-> | [err ->]] H; simpl in H.
  - injection H as _ <-. left. split; reflexivity.
  - rewrite bind_run in H. unfold env.Log in H.
    destruct (Log_var p key err (world p)) as [w|x] eqn:Hw; [|discriminate].
    injection H as _ <-. right. exists err. split; [exact Hw|reflexivity].
Qed.

(** X7. An accessor reports under its own key, and once at most: a call that
    returns has either not run the installed hook, and then has written
    nothing itself, or has run it exactly once, on the key the accessor was
    asked for and from the state the call started in. *)
Theorem accessors_report_own_key (L : golib) {W : Type} (p : process W)
        (key : string) :
  (forall def v p', env.String key def p = Returned (v, p') -> reported_by key p p') /\
  (forall def v p', env.Bool L key def p = Returned (v, p') -> reported_by key p p') /\
  (forall def v p', env_go.Bool key def p = Returned (v, p') -> reported_by key p p') /\
  (forall def v p', env.Int L key def p = Returned (v, p') -> reported_by key p p') /\
  (forall def v p', env.Float64 L key def p = Returned (v, p') -> reported_by key p p') /\
  (forall def v p', env.Duration key def p = Returned (v, p') -> reported_by key p p').
Proof.
  split_and!; intros def v p'.
  - rewrite String_run. apply run_reported, String_plan_keyed.
  - rewrite Bool_run. apply run_reported, Bool_plan_keyed.
  - rewrite Bool_go_run. apply run_reported, parse_plan_keyed.
  - rewrite Int_run. apply run_reported, parse_plan_keyed.
  - rewrite Float64_run.
    apply run_reported, (parse_plan_keyed (fun s => strconv_ParseFloat L s 64)).
  - rewrite Duration_run. apply run_reported, parse_plan_keyed.
Qed.

Lemma accessors_report_own_key_witness :
  exists p', env.Int example_lib "RATIO" 7 example_process = Returned (7, p')
             /\ reported_by "RATIO" example_process p'.
Proof.
  eexists. split; [reflexivity|].
  apply (proj1 (proj2 (proj2 (proj2
           (accessors_report_own_key example_lib example_process "RATIO")))) 7 7).
  reflexivity.
Defined.

Lemma run_logged {A : Type} key (pl : plan A) (p : process log.output) :
  Log_var p = env.Log_init -> keyed key pl ->
  exists p', run pl p = Returned (fst pl, p') /\ logged_by key p p'.
Proof.
  destruct pl as [v0 cs]. unfold keyed, run. simpl.
  intros Hinit [-> | [err ->]]; simpl.
  - exists p. split; [reflexivity|left; reflexivity].
  - rewrite bind_run. unfold env.Log. rewrite Hinit. simpl.
    eexists. split; [reflexivity|]. right. exists err. reflexivity.
Qed.

(** X8. With the hook the package starts with, every call of an accessor
    returns, and the standard logger gets nothing, or one entry made of the
    format [error while parsing %s: %v], the key and the error. *)
Theorem initial_hook_logs (L : golib) (p : process log.output) (key : string) :
  Log_var p = env.Log_init ->
  (forall def, exists v p', env.String key def p = Returned (v, p')
                            /\ logged_by key p p') /\
  (forall def, exists v p', env.Bool L key def p = Returned (v, p')
                            /\ logged_by key p p') /\
  (forall def, exists v p', env_go.Bool key def p = Returned (v, p')
                            /\ logged_by key p p') /\
  (forall def, exists v p', env.Int L key def p = Returned (v, p')
                            /\ logged_by key p p') /\
  (forall def, exists v p', env.Float64 L key def p = Returned (v, p')
                            /\ logged_by key p p') /\
  (forall def, exists v p', env.Duration key def p = Returned (v, p')
                            /\ logged_by key p p').
Proof.
  intros Hinit.
  assert (Hrun : forall A (pl : plan A), keyed key pl ->
            exists v p', run pl p = Returned (v, p') /\ logged_by key p p').
  { intros A pl Hk. destruct (run_logged key pl p Hinit Hk) as (p' & E & Hl). eauto. }
  split_and!; intros def.
  - rewrite String_run. apply Hrun, String_plan_keyed.
  - rewrite Bool_run. apply Hrun, Bool_plan_keyed.
  - rewrite Bool_go_run. apply Hrun, parse_plan_keyed.
  - rewrite Int_run. apply Hrun, parse_plan_keyed.
  - rewrite Float64_run.
    apply Hrun, (parse_plan_keyed (fun s => strconv_ParseFloat L s 64)).
  - rewrite Duration_run. apply Hrun, parse_plan_keyed.
Qed.

Lemma initial_hook_logs_witness :
  exists v p', env.Int example_lib "RATIO" 7 example_process = Returned (v, p')
               /\ logged_by "RATIO" example_process p'.
Proof.
  apply (initial_hook_logs example_lib example_process "RATIO"). reflexivity.
Defined.

Lemma append_nil_r s : s +:+ "" = s.
Proof.
  induction s as [|c s IH]; [reflexivity|].
  change (String c (s +:+ "") = String c s). f_equal. exact IH.
Qed.

Lemma leadingInt_overflow ds : forall rest x n,
  digits_value ds x = Some n -> 0 <= x <= 2 ^ 63 -> 2 ^ 63 < n ->
  time.leadingInt (ds +:+ rest) x = None.
Proof.
  induction ds as [|c ds IH]; intros rest x n Hn Hx Hbig; simpl in *.
  - injection Hn as <-. lia.
  - destruct ((48 <=? byte c) && (byte c <=? 57)) eqn:Hd; [|discriminate].
    apply andb_prop in Hd as [H1 H2].
    apply Z.leb_le in H1. apply Z.leb_le in H2.
    destruct (Z.ltb_spec (byte c) 48), (Z.ltb_spec 57 (byte c)); try lia. simpl.
    change (2 ^ 63) with 9223372036854775808 in *.
    change (9223372036854775808 / 10) with 922337203685477580.
    destruct (Z.ltb_spec 922337203685477580 x); [reflexivity|].
    rewrite (to_uint64_small (x * 10)) by lia.
    rewrite (to_uint64_small (x * 10 + byte c)) by lia.
    rewrite (to_uint64_small (x * 10 + byte c - 48)) by lia.
    destruct (Z.ltb_spec 9223372036854775808 (x * 10 + byte c - 48)); [reflexivity|].
    replace (x * 10 + byte c - 48) with (x * 10 + (byte c - 48)) in * by lia.
    apply (IH rest _ n Hn); lia.
Qed.

(** One magnitude with what follows it, up to the look-up of the unit. *)
Lemma span_unit_end u : forall rest,
  unit_bytes u = true -> unit_end rest = true ->
  time.span_unit (u +:+ rest) = (u, rest).
Proof.
  induction u as [|c u IH]; intros rest Hu Hr; simpl in *.
  - destruct rest as [|r rest]; [reflexivity|]. simpl in *.
    rewrite Hr. reflexivity.
  - apply andb_prop in Hu as [Hc Hu]. apply negb_true_iff in Hc.
    rewrite Hc. rewrite (IH rest Hu Hr). reflexivity.
Qed.

Lemma ParseDuration_pair_unit orig ds u rest d n :
  unsigned_literal ds = Some n -> n <= 2 ^ 63 ->
  u <> EmptyString -> unit_bytes u = true -> unit_end rest = true ->
  time.ParseDuration_pair orig (ds +:+ u +:+ rest) d =
  match time.unitMap u with
  | None =>
      inl (errorString ("time: unknown unit " +:+ time.quote u
                        +:+ " in duration " +:+ time.quote orig))
  | Some k =>
      if 2 ^ 63 / k <? n then inl (time.invalid orig)
      else if 2 ^ 63 <? to_uint64 (d + to_uint64 (n * k))
           then inl (time.invalid orig)
           else inr (rest, to_uint64 (d + to_uint64 (n * k)))
  end.
Proof.
  intros Hn Hmax Hne Hu Hrest.
  destruct (unsigned_literal_digit ds n Hn) as (c & ds' & -> & Hc & Hv).
  destruct u as [|q u']; [done|].
  pose proof Hu as Hu0. simpl in Hu0. apply andb_prop in Hu0 as [Hq _].
  apply negb_true_iff in Hq. apply orb_false_iff in Hq as [Hq46 Hqd].
  unfold time.ParseDuration_pair.
  change (String c ds' +:+ String q u' +:+ rest)
    with (String c (ds' +:+ String q u' +:+ rest)).
  cbv iota beta. rewrite Hc, orb_true_r. cbn [negb].
  change (String c (ds' +:+ String q u' +:+ rest))
    with (String c ds' +:+ (String q u' +:+ rest)).
  rewrite (leadingInt_digits (String c ds') (String q u' +:+ rest) 0 n Hv);
    [|lia|exact Hmax|exact Hqd].
  rewrite !append_length.
  replace (Nat.eqb _ _) with false
    by (symmetry; apply Nat.eqb_neq; simpl String.length; lia).
  change (String q u' +:+ rest) with (String q (u' +:+ rest)) at 1.
  cbv iota beta. rewrite Hq46. cbn [negb andb].
  rewrite (span_unit_end (String q u') rest Hu Hrest).
  cbv iota beta. change (String.eqb (String q u') "") with false. cbv iota.
  destruct (time.unitMap (String q u')) as [k|]; [|reflexivity].
  destruct (2 ^ 63 / k <? n); [reflexivity|].
  change (0 <? 0) with false. cbn [andb]. reflexivity.
Qed.

Lemma ParseDuration_first_pair (s : string) (e : error) :
  digit_next s = true -> s <> EmptyString -> String.eqb s "0" = false ->
  time.ParseDuration_pair s s 0 = inl e ->
  time.ParseDuration s = (0, Some e).
Proof.
  intros Hd Hne Hz Hp. unfold time.ParseDuration.
  destruct s as [|c r]; [done|]. simpl in Hd.
  assert (Hsign : Ascii.eqb c "-" || Ascii.eqb c "+" = false).
  { unfold time.is_digit in Hd. apply andb_prop in Hd as [H1 H2].
    apply Z.leb_le in H1. apply Z.leb_le in H2.
    destruct (Ascii.eqb_spec c "-") as [->|_]; [exfalso; apply H1; reflexivity|].
    destruct (Ascii.eqb_spec c "+") as [->|_]; [exfalso; apply H1; reflexivity|].
    reflexivity. }
  rewrite Hsign, Hz. change (String.eqb (String c r) "") with false. cbv iota.
  cbn [time.ParseDuration_loop]. rewrite Hp. reflexivity.
Qed.

Lemma ParseDuration_unsigned (s : string) :
  digit_next s = true -> s <> EmptyString -> String.eqb s "0" = false ->
  time.ParseDuration s =
  match time.ParseDuration_loop (S (String.length s)) s s 0 with
  | None => (0, Some (time.invalid s))
  | Some (inl e) => (0, Some e)
  | Some (inr d) =>
      if 2 ^ 63 - 1 <? d then (0, Some (time.invalid s)) else (to_int64 d, None)
  end.
Proof.
  intros Hd Hne Hz. unfold time.ParseDuration.
  destruct s as [|c r]; [done|]. simpl in Hd.
  assert (Hsign : Ascii.eqb c "-" || Ascii.eqb c "+" = false).
  { unfold time.is_digit in Hd. apply andb_prop in Hd as [H1 H2].
    apply Z.leb_le in H1. apply Z.leb_le in H2.
    destruct (Ascii.eqb_spec c "-") as [->|_]; [exfalso; apply H1; reflexivity|].
    destruct (Ascii.eqb_spec c "+") as [->|_]; [exfalso; apply H1; reflexivity|].
    reflexivity. }
  rewrite Hsign, Hz. change (String.eqb (String c r) "") with false. reflexivity.
Qed.

Lemma unsigned_literal_digit_next s n :
  unsigned_literal s = Some n -> digit_next s = true /\ s <> EmptyString.
Proof.
  intros H. destruct (unsigned_literal_digit s n H) as (c & r & -> & Hc & _).
  split; [exact Hc|discriminate].
Qed.

Lemma leadingInt_all s x n :
  digits_value s x = Some n -> 0 <= x -> n <= 2 ^ 63 ->
  time.leadingInt s x = Some (n, EmptyString).
Proof.
  intros Hv Hx Hmax.
  pose proof (leadingInt_digits s "" x n Hv Hx Hmax I) as H.
  rewrite append_nil_r in H. exact H.
Qed.

Lemma leadingInt_all_overflow s x n :
  digits_value s x = Some n -> 0 <= x <= 2 ^ 63 -> 2 ^ 63 < n ->
  time.leadingInt s x = None.
Proof.
  intros Hv Hx Hbig.
  pose proof (leadingInt_overflow s "" x n Hv Hx Hbig) as H.
  rewrite append_nil_r in H. exact H.
Qed.

(** X9. A bare number is no duration, except [0]: on a raw value that is
    only decimal digits [Duration] returns zero for [0] itself without
    invoking the hook, and for any other it invokes the hook exactly once,
    with the key and the error [missing unit in duration] (or [invalid
    duration] when the number is above 2^63), and returns the default. *)
Theorem Duration_bare_number {W : Type} (p : process W)
        (key : string) (def : time.Duration) (raw : string) (n : Z) :
  raw_value p key = Some raw ->
  unsigned_literal raw = Some n ->
  (raw = "0"%string -> returns_silently (env.Duration key def) p 0) /\
  (raw <> "0"%string -> n <= 2 ^ 63 ->
   reports_once (env.Duration key def) p key
     (errorString ("time: missing unit in duration " +:+ time.quote raw)) def) /\
  (2 ^ 63 < n ->
   reports_once (env.Duration key def) p key (time.invalid raw) def).
Proof.
  intros Hraw Hn. unfold returns_silently, reports_once.
  destruct (unsigned_literal_digit_next raw n Hn) as [Hd Hne].
  rewrite Duration_run, (getenv_set _ _ _ Hraw).
  destruct (unsigned_literal_digit raw n Hn) as (c & r & E & Hc & Hv).
  split_and!.
  - intros ->. reflexivity.
  - intros Hz Hmax.
    assert (Hp : time.ParseDuration_pair raw raw 0
                 = inl (errorString ("time: missing unit in duration "
                                     +:+ time.quote raw))).
    { pose proof (leadingInt_all raw 0 n Hv ltac:(lia) Hmax) as Hl.
      clear Hraw Hn Hd Hne Hz Hv. subst raw.
      unfold time.ParseDuration_pair.
      rewrite Hc, orb_true_r. cbn [negb]. rewrite Hl. reflexivity. }
    apply String.eqb_neq in Hz.
    rewrite (parse_plan_err _ _ _ _ _ _ Hne
               (ParseDuration_first_pair raw _ Hd Hne Hz Hp)).
    reflexivity.
  - intros Hbig.
    assert (Hz : String.eqb raw "0" = false).
    { apply String.eqb_neq. intros ->. vm_compute in Hn.
      injection Hn as <-. revert Hbig. vm_compute. discriminate. }
    assert (Hp : time.ParseDuration_pair raw raw 0 = inl (time.invalid raw)).
    { assert (Hl : time.leadingInt raw 0 = None).
      { apply (leadingInt_all_overflow raw 0 n Hv); [|exact Hbig].
        change (2 ^ 63) with 9223372036854775808. lia. }
      clear Hraw Hn Hd Hne Hz Hv. subst raw.
      unfold time.ParseDuration_pair.
      rewrite Hc, orb_true_r. cbn [negb]. rewrite Hl. reflexivity. }
    rewrite (parse_plan_err _ _ _ _ _ _ Hne
               (ParseDuration_first_pair raw _ Hd Hne Hz Hp)).
    reflexivity.
Qed.

Lemma Duration_bare_number_witness :
  reports_once (env.Duration "PORT" 0) example_process "PORT"
    (errorString ("time: missing unit in duration " +:+ time.quote "42")) 0.
Proof.
  apply (proj1 (proj2 (Duration_bare_number example_process "PORT" 0 "42" 42
                         eq_refl eq_refl)));
    [discriminate | vm_compute; discriminate].
Defined.

Lemma not_zero_literal c r t :
  t <> EmptyString -> String.eqb (String c (r +:+ t)) "0" = false.
Proof.
  intros Ht. apply String.eqb_neq. intros H. injection H as _ H.
  destruct r; [simpl in H; contradiction|discriminate].
Qed.

(** X10. A unit outside the table is an error. Take a raw value that starts
    with a decimal magnitude followed by a unit, the bytes up to the next
    digit or dot or to the end, that [time.ParseDuration] does not know (a
    day or a week, say). [Duration] then invokes the hook exactly once with
    the key and returns the default; the error is [unknown unit], naming
    that unit and the raw value, when the magnitude is at most 2^63, and
    [invalid duration] when the magnitude is above 2^63. *)
Theorem Duration_unknown_unit {W : Type} (p : process W)
        (key : string) (def : time.Duration) (ds u rest : string) (n : Z) :
  raw_value p key = Some (ds +:+ u +:+ rest) ->
  unsigned_literal ds = Some n ->
  u <> EmptyString -> unit_bytes u = true -> unit_end rest = true ->
  time.unitMap u = None ->
  (n <= 2 ^ 63 ->
   reports_once (env.Duration key def) p key
     (errorString ("time: unknown unit " +:+ time.quote u +:+ " in duration "
                   +:+ time.quote (ds +:+ u +:+ rest))) def) /\
  (2 ^ 63 < n ->
   reports_once (env.Duration key def) p key
     (time.invalid (ds +:+ u +:+ rest)) def).
Proof.
  intros Hraw Hn Hne Hu Hrest Hk. unfold reports_once.
  rewrite Duration_run, (getenv_set _ _ _ Hraw).
  destruct (unsigned_literal_digit ds n Hn) as (c & ds' & -> & Hc & Hv).
  assert (Hut : u +:+ rest <> EmptyString).
  { destruct u as [|q u']; [done|]. intros H.
    change (String q (u' +:+ rest) = EmptyString) in H. discriminate H. }
  assert (Hnonempty : String c ds' +:+ u +:+ rest <> EmptyString) by discriminate.
  split.
  - intros Hmax.
    pose proof (ParseDuration_pair_unit (String c ds' +:+ u +:+ rest)
                  (String c ds') u rest 0 n Hn Hmax Hne Hu Hrest) as Hp.
    rewrite Hk in Hp.
    rewrite (parse_plan_err _ _ _ _ _ _ Hnonempty
               (ParseDuration_first_pair (String c ds' +:+ u +:+ rest) _ Hc
                  Hnonempty (not_zero_literal c ds' (u +:+ rest) Hut) Hp)).
    reflexivity.
  - intros Hover.
    assert (Hl : time.leadingInt (String c ds' +:+ u +:+ rest) 0 = None).
    { apply (leadingInt_overflow (String c ds') (u +:+ rest) 0 n Hv).
      - change (2 ^ 63) with 9223372036854775808. lia.
      - exact Hover. }
    assert (Hp : time.ParseDuration_pair (String c ds' +:+ u +:+ rest)
                   (String c ds' +:+ u +:+ rest) 0
                 = inl (time.invalid (String c ds' +:+ u +:+ rest))).
    { change (String c ds' +:+ u +:+ rest)
        with (String c (ds' +:+ u +:+ rest)) in Hl |- *.
      unfold time.ParseDuration_pair. rewrite Hc, orb_true_r. cbn [negb].
      rewrite Hl. reflexivity. }
    rewrite (parse_plan_err _ _ _ _ _ _ Hnonempty
               (ParseDuration_first_pair (String c ds' +:+ u +:+ rest) _ Hc
                  Hnonempty (not_zero_literal c ds' (u +:+ rest) Hut) Hp)).
    reflexivity.
Qed.

Lemma Duration_unknown_unit_witness :
  reports_once (env.Duration "TTL" 0)
    (with_environ {["TTL" := "7d.5h"]} example_process) "TTL"
    (errorString ("time: unknown unit " +:+ time.quote "d" +:+ " in duration "
                  +:+ time.quote "7d.5h")) 0 /\
  reports_once (env.Duration "TTL" 0)
    (with_environ {["TTL" := "99999999999999999999d"]} example_process) "TTL"
    (time.invalid "99999999999999999999d") 0.
Proof.
  split.
  - refine (proj1 (Duration_unknown_unit
                     (with_environ {["TTL" := "7d.5h"]} example_process)
                     "TTL" 0 "7" "d" ".5h" 7 _ _ _ _ _ _) _);
      [reflexivity | reflexivity | discriminate | reflexivity | reflexivity
      | reflexivity | vm_compute; discriminate].
  - refine (proj2 (Duration_unknown_unit
                     (with_environ {["TTL" := "99999999999999999999d"]}
                        example_process)
                     "TTL" 0 "99999999999999999999" "d" "" 99999999999999999999
                     _ _ _ _ _ _) _);
      [reflexivity | reflexivity | discriminate | reflexivity | reflexivity
      | reflexivity | vm_compute; reflexivity].
Defined.

(** X11. A magnitude and unit beyond the range of the duration are reported,
    not wrapped: when the raw value is one decimal magnitude and one unit
    of the table and their product is above 2^63 - 1 nanoseconds,
    [Duration] invokes the hook exactly once, with the key and the error
    [invalid duration], and returns the default. *)
Theorem Duration_out_of_range {W : Type} (p : process W)
        (key : string) (def : time.Duration) (ds u : string) (n k : Z) :
  raw_value p key = Some (ds +:+ u) ->
  unsigned_literal ds = Some n -> time.unitMap u = Some k ->
  2 ^ 63 - 1 < n * k ->
  reports_once (env.Duration key def) p key (time.invalid (ds +:+ u)) def.
Proof.
  intros Hraw Hn Hk Hbig. unfold reports_once.
  rewrite Duration_run, (getenv_set _ _ _ Hraw).
  destruct (unitMap_unit u k Hk) as (Hne & Hu & Hk1 & Hk2).
  destruct (unsigned_literal_digit ds n Hn) as (c & ds' & E & Hc & Hv).
  assert (Hd : digit_next (ds +:+ u) = true) by (subst ds; exact Hc).
  assert (Hnz : String.eqb (ds +:+ u) "0" = false)
    by (subst ds; apply not_zero_literal; exact Hne).
  assert (Hnonempty : ds +:+ u <> EmptyString) by (subst ds; discriminate).
  assert (HP : time.ParseDuration (ds +:+ u) = (0, Some (time.invalid (ds +:+ u)))).
  { change (2 ^ 63) with 9223372036854775808 in *.
    destruct (Z_le_gt_dec n 9223372036854775808) as [Hmax|Hover].
    - pose proof (ParseDuration_pair_unit (ds +:+ u) ds u "" 0 n Hn) as Hp.
      rewrite append_nil_r, Hk in Hp.
      change (2 ^ 63) with 9223372036854775808 in Hp.
      specialize (Hp Hmax Hne Hu eq_refl).
      destruct (Z.ltb_spec (9223372036854775808 / k) n) as [Hdiv|Hdiv].
      + apply (ParseDuration_first_pair _ _ Hd Hnonempty Hnz Hp).
      + assert (Hnk : n * k <= 9223372036854775808).
        { pose proof (Z.mul_div_le 9223372036854775808 k ltac:(lia)). nia. }
        rewrite (to_uint64_small (n * k)) in Hp by lia.
        rewrite (to_uint64_small (0 + n * k)) in Hp by lia.
        destruct (Z.ltb_spec 9223372036854775808 (0 + n * k)); [lia|].
        rewrite (ParseDuration_unsigned _ Hd Hnonempty Hnz).
        destruct (ds +:+ u) as [|c0 r0] eqn:Es; [done|].
        cbn [time.ParseDuration_loop]. rewrite Hp. simpl time.ParseDuration_loop.
        change (2 ^ 63) with 9223372036854775808.
        cbv beta iota.
        match goal with
        | |- context [?a <? ?b] => destruct (Z.ltb_spec a b); [reflexivity|lia]
        end.
    - assert (Hl : time.leadingInt (ds +:+ u) 0 = None).
      { apply (leadingInt_overflow ds u 0 n Hv).
        - change (2 ^ 63) with 9223372036854775808. lia.
        - change (2 ^ 63) with 9223372036854775808. lia. }
      apply (ParseDuration_first_pair _ _ Hd Hnonempty Hnz).
      destruct (ds +:+ u) as [|c0 r0] eqn:Es; [done|].
      unfold time.ParseDuration_pair. simpl in Hd. rewrite Hd, orb_true_r.
      cbn [negb]. rewrite Hl. reflexivity. }
  rewrite (parse_plan_err _ _ _ _ _ _ Hnonempty HP). reflexivity.
Qed.

Lemma Duration_out_of_range_witness :
  reports_once (env.Duration "TTL" 0)
    (with_environ {["TTL" := "10000000000h"]} example_process) "TTL"
    (time.invalid "10000000000h") 0.
Proof.
  apply (Duration_out_of_range
           (with_environ {["TTL" := "10000000000h"]} example_process)
           "TTL" 0 "10000000000" "h" 10000000000 time.Hour);
    [reflexivity | reflexivity | reflexivity | vm_compute; reflexivity].
Defined.

(** X12. What [Int] reads on a 32-bit platform it reads on a 64-bit one: a
    non-empty raw value for which [Int] returns [v] without invoking the
    hook where [int] has 32 bits gives the same [v], again without a hook
    call, where it has 64. *)
Theorem Int_32_then_64 (L32 L64 : golib) {W : Type} (p : process W)
        (key : string) (def : Z) (raw : string) (v : Z) :
  GOARCH L32 = Bits32 -> GOARCH L64 = Bits64 ->
  raw_value p key = Some raw ->
  raw <> EmptyString ->
  returns_silently (env.Int L32 key def) p v ->
  returns_silently (env.Int L64 key def) p v.
Proof.
  intros H32 H64 Hraw Hne Hs. unfold returns_silently in *.
  rewrite Int_run, (getenv_set _ _ _ Hraw) in Hs. apply run_silent in Hs.
  unfold parse_plan in Hs.
  destruct (String.eqb_spec raw ""); [contradiction|]. simpl in Hs.
  pose proof (Atoi_spec (GOARCH L32) raw) as HA.
  pose proof (Atoi_spec (GOARCH L64) raw) as HB.
  rewrite H32 in *. rewrite H64 in *.
  destruct (int_literal raw) as [z|].
  - rewrite HA in Hs. unfold literal_result in Hs.
    destruct (Z.ltb_spec z (minInt Bits32)); [discriminate|].
    destruct (Z.ltb_spec (maxInt Bits32) z); [discriminate|].
    injection Hs as ->.
    rewrite literal_result_in_range in HB.
    + rewrite Int_run, (getenv_set _ _ _ Hraw), H64,
        (parse_plan_ok _ _ _ _ _ Hne HB). reflexivity.
    + unfold minInt, maxInt in *. simpl intSize in *.
      change (2 ^ (32 - 1)) with 2147483648 in *.
      change (2 ^ (64 - 1)) with 9223372036854775808. lia.
  - destruct HA as [HA|[x HA]]; rewrite HA in Hs; discriminate.
Qed.

Lemma Int_32_then_64_witness :
  returns_silently (env.Int example_lib "PORT" 0) example_process 42.
Proof.
  apply (Int_32_then_64
           (GoLib Bits32 (strconv_ParseFloat example_lib)
                  (strings_Map_unicode_ToLower example_lib))
           example_lib example_process "PORT" 0 "42" 42);
    [reflexivity | reflexivity | reflexivity | discriminate | reflexivity].
Defined.
